(** * transcribee: transcript assembly, library reading and prompt building

    A shallow embedding of [index.ts].  JavaScript strings are sequences of
    UTF-16 code units, JavaScript numbers are binary64 floats, the file
    system is a tree, and external services are outcomes given from outside. *)

From Stdlib Require Import List ZArith NArith Lia Bool String Ascii PrimFloat
  DecimalString.
Import ListNotations.

Set Implicit Arguments.
Set Warnings "-register-all".

(** ** JavaScript strings *)

Module JS.

(** A string is the list of its UTF-16 code units; [length] is [.length]. *)
Definition char := N.
Definition str := list char.

(** An ASCII literal of the source, one code unit per character. *)
Definition lit (s : string) : str := map N_of_ascii (list_ascii_of_string s).

(** The double quote, which a literal cannot hold, and the line feed. *)
Definition dq : str := [34%N].
Definition nl : str := [10%N].

(** [a === b] on strings. *)
Fixpoint eqb (a b : str) : bool :=
  match a, b with
  | [], [] => true
  | x :: a', y :: b' => N.eqb x y && eqb a' b'
  | _, _ => false
  end.

(** ToBoolean of a string: the empty string is the only falsy one. *)
Definition truthy (s : str) : bool :=
  match s with [] => false | _ :: _ => true end.

(** [Array.prototype.join] on an array of strings. *)
Fixpoint join (sep : str) (l : list str) : str :=
  match l with
  | [] => []
  | [x] => x
  | x :: rest => x ++ sep ++ join sep rest
  end.

(** [String.prototype.split] with a one-unit separator: the pieces between
    the occurrences of [sep]; the empty string gives one empty piece. *)
Fixpoint split (sep : char) (s : str) : list str :=
  match s with
  | [] => [[]]
  | c :: rest =>
      if N.eqb c sep then [] :: split sep rest
      else match split sep rest with
           | [] => [[c]]
           | p :: ps => (c :: p) :: ps
           end
  end.

(** The class [\s] of an ECMAScript regular expression: WhiteSpace and
    LineTerminator code points. *)
Definition is_space (c : char) : bool :=
  (N.leb 9 c && N.leb c 13) || N.eqb c 32 || N.eqb c 160 || N.eqb c 5760
  || (N.leb 8192 c && N.leb c 8202) || N.eqb c 8232 || N.eqb c 8233
  || N.eqb c 8239 || N.eqb c 8287 || N.eqb c 12288 || N.eqb c 65279.

(** The class [[.,!?;:]]. *)
Definition is_punct (c : char) : bool :=
  N.eqb c 46 || N.eqb c 44 || N.eqb c 33 || N.eqb c 63 || N.eqb c 59
  || N.eqb c 58.

(** The regular expression [\s+([.,!?;:])] tried at the head of [s]: the
    captured character and what follows the match.  [\s+] is greedy, and a
    shorter run cannot match since no space is in [[.,!?;:]]. *)
Fixpoint match_space_punct_tail (s : str) : option (char * str) :=
  match s with
  | [] => None
  | c :: rest =>
      if is_space c then match_space_punct_tail rest
      else if is_punct c then Some (c, rest) else None
  end.

Definition match_space_punct (s : str) : option (char * str) :=
  match s with
  | [] => None
  | c :: rest => if is_space c then match_space_punct_tail rest else None
  end.

(** [s.replace(/\s+([.,!?;:])/g, '$1')]: every match, leftmost first, is
    replaced by its captured character.  A space that starts a match is
    dropped, and so is every space of the run after it; the captured
    character is then copied like any other. *)
Fixpoint collapse_space_punct (s : str) : str :=
  match s with
  | [] => []
  | c :: rest =>
      match match_space_punct (c :: rest) with
      | Some _ => collapse_space_punct rest
      | None => c :: collapse_space_punct rest
      end
  end.

End JS.

Import JS.

(** ** JavaScript numbers *)

Module Num.

Definition number := float.

Definition is_nan (x : number) : bool := negb (PrimFloat.eqb x x).

(** ToBoolean of a number: [+0], [-0] and [NaN] are falsy. *)
Definition truthy (x : number) : bool :=
  negb (PrimFloat.eqb x 0%float || is_nan x).

End Num.

(** ** Types *)

Record Word := mkWord {
  text : str;
  start : Num.number;
  end_ : Num.number;
  type : str;
  speaker_id : str
}.

(** ** Transcript Assembler *)

Module Assembler.

(** The three variables [wordsToTranscript] mutates. *)
Record state := mkState {
  lines : list str;
  currentSpeaker : str;
  currentSentence : list str
}.

Definition line_of (speaker : str) (sentence : list str) : str :=
  speaker ++ lit ": " ++ collapse_space_punct (join (lit " ") sentence).

Definition flush (st : state) : state :=
  match currentSentence st with
  | [] => st
  | _ :: _ =>
      {| lines := lines st ++ [line_of (currentSpeaker st) (currentSentence st)];
         currentSpeaker := currentSpeaker st;
         currentSentence := [] |}
  end.

Definition set_speaker (st : state) (s : str) : state :=
  {| lines := lines st; currentSpeaker := s;
     currentSentence := currentSentence st |}.

Definition push_text (st : state) (t : str) : state :=
  {| lines := lines st; currentSpeaker := currentSpeaker st;
     currentSentence := currentSentence st ++ [t] |}.

(** One turn of the [for (const token of words)] loop. *)
Definition step (st : state) (token : Word) : state :=
  let st1 :=
    if negb (eqb (speaker_id token) (currentSpeaker st))
    then set_speaker (flush st) (speaker_id token)
    else st in
  if negb (eqb (type token) (lit "spacing"))
  then push_text st1 (text token)
  else st1.

(** The array [lines] when the function returns. *)
Definition transcriptLines (words : list Word) : list str :=
  match words with
  | [] => []
  | w0 :: _ =>
      lines (flush (fold_left step words
                      {| lines := []; currentSpeaker := speaker_id w0;
                         currentSentence := [] |}))
  end.

Definition wordsToTranscript (words : list Word) : str :=
  match words with
  | [] => []
  | _ :: _ => join nl (transcriptLines words)
  end.

(** *** The runs of the specification *)

(** The maximal runs of consecutive tokens that share a speaker id. *)
Fixpoint runs (ws : list Word) : list (list Word) :=
  match ws with
  | [] => []
  | w :: rest =>
      match runs rest with
      | (w' :: r) :: rs =>
          if eqb (speaker_id w) (speaker_id w')
          then (w :: w' :: r) :: rs
          else [w] :: (w' :: r) :: rs
      | _ => [[w]]
      end
  end.

Definition not_spacing (w : Word) : bool := negb (eqb (type w) (lit "spacing")).

(** The text fragments a run contributes. *)
Definition fragments (r : list Word) : list str :=
  map text (filter not_spacing r).

(** A run has text when one of its tokens is not a spacing token. *)
Definition has_text (r : list Word) : bool := existsb not_spacing r.

Definition run_speaker (r : list Word) : str :=
  match r with [] => [] | w :: _ => speaker_id w end.

(** The line of a run: ["speakerId: joined text"]. *)
Definition run_line (r : list Word) : str :=
  line_of (run_speaker r) (fragments r).

(** Neighbouring runs have different speakers: no run can be extended. *)
Fixpoint separated (rs : list (list Word)) : bool :=
  match rs with
  | r1 :: ((r2 :: _) as rest) =>
      negb (eqb (run_speaker r1) (run_speaker r2)) && separated rest
  | _ => true
  end.

(** One speaker throughout a run. *)
Definition one_speaker (r : list Word) : bool :=
  forallb (fun w => eqb (speaker_id w) (run_speaker r)) r.

(** *** The loop, as a function of the tokens still to come *)

(** What [flush] adds to [lines]. *)
Definition close (speaker : str) (sentence : list str) : list str :=
  match sentence with
  | [] => []
  | _ :: _ => [line_of speaker sentence]
  end.

Definition push (sentence : list str) (w : Word) : list str :=
  if not_spacing w then sentence ++ [text w] else sentence.

(** The lines still to be added, from the current speaker and sentence. *)
Fixpoint emit (speaker : str) (sentence : list str) (ws : list Word)
  : list str :=
  match ws with
  | [] => close speaker sentence
  | w :: rest =>
      if eqb (speaker_id w) speaker
      then emit speaker (push sentence w) rest
      else close speaker sentence ++ emit (speaker_id w) (push [] w) rest
  end.

(** The lines a run adds. *)
Definition run_lines (r : list Word) : list str :=
  close (run_speaker r) (fragments r).

End Assembler.

(** ** Token Normalizer *)

Module Normalizer.

(** A word of the provider's response as it arrives: any field may be
    absent ([undefined] or [null]). *)
Record WordResponse := mkWordResponse {
  r_text : option str;
  r_start : option Num.number;
  r_end : option Num.number;
  r_type : option str;
  r_speaker_id : option str
}.

(** [v || d] on an optional string. *)
Definition or_str (v : option str) (d : str) : str :=
  match v with
  | Some s => if JS.truthy s then s else d
  | None => d
  end.

(** [v || d] on an optional number. *)
Definition or_num (v : option Num.number) (d : Num.number) : Num.number :=
  match v with
  | Some x => if Num.truthy x then x else d
  | None => d
  end.

(** The arrow function given to [resp.words.map]. *)
Definition normalizeWord (w : WordResponse) : Word :=
  {| text := or_str (r_text w) [];
     start := or_num (r_start w) 0%float;
     end_ := or_num (r_end w) 0%float;
     type := or_str (r_type w) (lit "word");
     speaker_id := or_str (r_speaker_id w) (lit "unknown") |}.

Definition normalize (words : list WordResponse) : list Word :=
  map normalizeWord words.

End Normalizer.

(** ** JSON.parse *)

Module Json.

(** A parsed value.  A number keeps the decimal value the text denotes,
    [(-1)^negative * mantissa * 10^exp10]; the Number is that value rounded
    to binary64.  An object holds its own properties in the order the
    language lists them, one for each key. *)
Inductive value :=
| VNull
| VBool (b : bool)
| VNumber (negative : bool) (mantissa : N) (exp10 : Z)
| VString (s : str)
| VArray (items : list value)
| VObject (members : list (str * value)).

(** ToBoolean.  A number is falsy when it rounds to zero: when its
    magnitude is at most [2^-1075], half the least positive binary64. *)
Definition truthy (v : value) : bool :=
  match v with
  | VNull => false
  | VBool b => b
  | VNumber _ m e =>
      if (0 <=? e)%Z then negb (N.eqb m 0)
      else (10 ^ (- e) <? Z.of_N m * 2 ^ 1075)%Z
  | VString s => JS.truthy s
  | VArray _ => true
  | VObject _ => true
  end.

Definition is_ws (c : char) : bool :=
  N.eqb c 32 || N.eqb c 9 || N.eqb c 10 || N.eqb c 13.

Fixpoint skip_ws (s : str) : str :=
  match s with
  | c :: rest => if is_ws c then skip_ws rest else s
  | [] => []
  end.

Definition digit (c : char) : option N :=
  if N.leb 48 c && N.leb c 57 then Some (c - 48)%N else None.

Definition hex (c : char) : option N :=
  if N.leb 48 c && N.leb c 57 then Some (c - 48)%N
  else if N.leb 97 c && N.leb c 102 then Some (c - 87)%N
  else if N.leb 65 c && N.leb c 70 then Some (c - 55)%N
  else None.

(** The digits at the head of [s], added to [acc]: the value, how many
    digits were read, and the rest. *)
Fixpoint digits (acc : N) (count : nat) (s : str) : N * nat * str :=
  match s with
  | c :: rest =>
      match digit c with
      | Some d => digits (acc * 10 + d)%N (S count) rest
      | None => (acc, count, s)
      end
  | [] => (acc, count, [])
  end.

(** The exponent part, when there is one. *)
Definition exponent (s : str) : option (Z * str) :=
  match s with
  | c :: rest =>
      if N.eqb c 101 || N.eqb c 69 then
        let '(neg, rest1) :=
          match rest with
          | 45%N :: r => (true, r)
          | 43%N :: r => (false, r)
          | _ => (false, rest)
          end in
        match digits 0 0 rest1 with
        | (_, O, _) => None
        | (e, _, rest2) =>
            Some (if neg then (- Z.of_N e)%Z else Z.of_N e, rest2)
        end
      else Some (0%Z, s)
  | [] => Some (0%Z, [])
  end.

(** The fraction part, when there is one, continuing the mantissa. *)
Definition fraction (int : N) (s : str) : option (N * nat * str) :=
  match s with
  | 46%N :: rest =>
      match digits int 0 rest with
      | (_, O, _) => None
      | r => Some r
      end
  | _ => Some (int, O, s)
  end.

(** A number, after its sign: no leading zero before another digit. *)
Definition unsigned_number (neg : bool) (s : str) : option (value * str) :=
  let int :=
    match s with
    | 48%N :: rest => Some (0%N, rest)
    | _ => match digits 0 0 s with
           | (_, O, _) => None
           | (n, _, rest) => Some (n, rest)
           end
    end in
  match int with
  | None => None
  | Some (n, rest) =>
      match fraction n rest with
      | None => None
      | Some (m, places, rest1) =>
          match exponent rest1 with
          | None => None
          | Some (e, rest2) =>
              Some (VNumber neg m (e - Z.of_nat places), rest2)
          end
      end
  end.

(** The characters of a string after its opening quote, up to the closing
    one. *)
Fixpoint string_body (s : str) : option (str * str) :=
  let cons c r :=
    match r with Some (t, rest) => Some (c :: t, rest) | None => None end in
  match s with
  | [] => None
  | 34%N :: rest => Some ([], rest)
  | 92%N :: e :: rest =>
      match e with
      | 34%N => cons 34%N (string_body rest)
      | 92%N => cons 92%N (string_body rest)
      | 47%N => cons 47%N (string_body rest)
      | 98%N => cons 8%N (string_body rest)
      | 102%N => cons 12%N (string_body rest)
      | 110%N => cons 10%N (string_body rest)
      | 114%N => cons 13%N (string_body rest)
      | 116%N => cons 9%N (string_body rest)
      | 117%N =>
          match rest with
          | a :: b :: c :: d :: rest' =>
              match hex a, hex b, hex c, hex d with
              | Some a, Some b, Some c, Some d =>
                  cons (((a * 16 + b) * 16 + c) * 16 + d)%N (string_body rest')
              | _, _, _, _ => None
              end
          | _ => None
          end
      | _ => None
      end
  | 92%N :: [] => None
  | c :: rest => if N.ltb c 32 then None else cons c (string_body rest)
  end.

(** The array index a key stands for: a canonical numeral below
    [2^32 - 1]. *)
Definition arrayIndex (key : str) : option N :=
  match key with
  | [] => None
  | [48%N] => Some 0%N
  | 48%N :: _ => None
  | _ :: _ =>
      match digits 0 0 key with
      | (n, _, []) => if N.ltb n 4294967295 then Some n else None
      | _ => None
      end
  end.

(** The definition of one property: a key the object has keeps its place
    and takes the new value, another key goes to the end. *)
Fixpoint setMember (key : str) (v : value) (members : list (str * value))
  : list (str * value) :=
  match members with
  | [] => [(key, v)]
  | (k, old) :: rest =>
      if JS.eqb k key then (key, v) :: rest
      else (k, old) :: setMember key v rest
  end.

(** A property with an array index, put at its place among those that
    have one, in ascending order. *)
Fixpoint insertIndexed (n : N) (member : str * value)
    (sorted : list (N * (str * value))) : list (N * (str * value)) :=
  match sorted with
  | [] => [(n, member)]
  | (m, other) :: rest =>
      if N.ltb n m then (n, member) :: sorted
      else (m, other) :: insertIndexed n member rest
  end.

Fixpoint indexed (members : list (str * value)) : list (N * (str * value)) :=
  match members with
  | [] => []
  | (k, v) :: rest =>
      match arrayIndex k with
      | Some n => insertIndexed n (k, v) (indexed rest)
      | None => indexed rest
      end
  end.

(** The properties of the object a list of members in text order makes:
    each member defines its property in turn, so the last value of a
    repeated key stays; the keys that are array indices come first, in
    ascending order, then the other keys in the order of their first
    definition. *)
Definition properties (members : list (str * value)) : list (str * value) :=
  let defined :=
    fold_left (fun obj m => setMember (fst m) (snd m) obj) members [] in
  map snd (indexed defined)
  ++ filter (fun m => match arrayIndex (fst m) with Some _ => false | None => true end)
            defined.

Definition literal (word : string) (v : value) (s : str) : option (value * str) :=
  let w := lit word in
  if JS.eqb (firstn (List.length w) s) w
  then Some (v, skipn (List.length w) s) else None.

(** A value at the head of [s], after white space; [elements] and [members]
    read the items of an array and the members of an object, in text
    order. *)
Fixpoint parse_value (fuel : nat) (s : str) : option (value * str) :=
  match fuel with
  | O => None
  | S fuel' =>
      match skip_ws s with
      | [] => None
      | 34%N :: rest =>
          match string_body rest with
          | Some (t, rest') => Some (VString t, rest')
          | None => None
          end
      | 45%N :: rest => unsigned_number true rest
      | 91%N :: rest =>
          match skip_ws rest with
          | 93%N :: rest' => Some (VArray [], rest')
          | _ =>
              match elements fuel' rest with
              | Some (l, rest') => Some (VArray l, rest')
              | None => None
              end
          end
      | 123%N :: rest =>
          match skip_ws rest with
          | 125%N :: rest' => Some (VObject [], rest')
          | _ =>
              match members fuel' rest with
              | Some (l, rest') => Some (VObject (properties l), rest')
              | None => None
              end
          end
      | 116%N :: _ => literal "true" (VBool true) (skip_ws s)
      | 102%N :: _ => literal "false" (VBool false) (skip_ws s)
      | 110%N :: _ => literal "null" VNull (skip_ws s)
      | _ => unsigned_number false (skip_ws s)
      end
  end
with elements (fuel : nat) (s : str) : option (list value * str) :=
  match fuel with
  | O => None
  | S fuel' =>
      match parse_value fuel' s with
      | None => None
      | Some (v, rest) =>
          match skip_ws rest with
          | 93%N :: rest' => Some ([v], rest')
          | 44%N :: rest' =>
              match elements fuel' rest' with
              | Some (l, rest'') => Some (v :: l, rest'')
              | None => None
              end
          | _ => None
          end
      end
  end
with members (fuel : nat) (s : str) : option (list (str * value) * str) :=
  match fuel with
  | O => None
  | S fuel' =>
      match skip_ws s with
      | 34%N :: rest =>
          match string_body rest with
          | None => None
          | Some (k, rest1) =>
              match skip_ws rest1 with
              | 58%N :: rest2 =>
                  match parse_value fuel' rest2 with
                  | None => None
                  | Some (v, rest3) =>
                      match skip_ws rest3 with
                      | 125%N :: rest' => Some ([(k, v)], rest')
                      | 44%N :: rest' =>
                          match members fuel' rest' with
                          | Some (l, rest'') => Some ((k, v) :: l, rest'')
                          | None => None
                          end
                      | _ => None
                      end
                  end
              | _ => None
              end
          end
      | _ => None
      end
  end.

(** [JSON.parse(text)]: [None] is a SyntaxError.  Each level of nesting
    takes two units of fuel and at least one code unit of the text. *)
Definition parse (text : str) : option value :=
  match parse_value (2 * List.length text + 2) text with
  | Some (v, rest) =>
      match skip_ws rest with [] => Some v | _ :: _ => None end
  | None => None
  end.

End Json.

(** ** Library types *)

Inductive Confidence := high | medium | low.

Record ThemeClassification := mkTheme {
  primaryTheme : str;
  subTheme : str;
  folderName : str;
  confidence : Confidence;
  summary : str
}.

Record TranscriptMetadata := mkMetadata {
  sourceUrl : str;
  title : str;
  date : str;
  theme : ThemeClassification;
  language : option str;
  language_confidence : option Num.number;
  wordsDetected : option Num.number
}.

Inductive NodeType := folder | transcript.

(** [FolderNode], over the type of its metadata: [JSON.parse] gives the
    reader any value, which the source casts without a check. *)
Inductive FolderNode (M : Type) : Type :=
  mkNode (name path : str) (type : NodeType)
         (children : option (list (FolderNode M))) (metadata : option M).

Arguments mkNode {M} name path type children metadata.

Definition node_name {M} (n : FolderNode M) : str :=
  match n with mkNode name _ _ _ _ => name end.
Definition node_path {M} (n : FolderNode M) : str :=
  match n with mkNode _ path _ _ _ => path end.
Definition node_type {M} (n : FolderNode M) : NodeType :=
  match n with mkNode _ _ type _ _ => type end.
Definition node_children {M} (n : FolderNode M) : option (list (FolderNode M)) :=
  match n with mkNode _ _ _ children _ => children end.
Definition node_metadata {M} (n : FolderNode M) : option M :=
  match n with mkNode _ _ _ _ metadata => metadata end.

(** What a rejected promise carries, as far as the model tells them apart. *)
Inductive error :=
| ENOTDIR | EACCES | ServiceError | TypeError | SyntaxError
| UnexpectedResponse.

Inductive result (A : Type) : Type :=
| Ok (a : A)
| Err (e : error).

Arguments Ok {A} a.
Arguments Err {A} e.

(** ** Library Reader *)

Module Library.

(** The file system: a file with its text, or a directory with its
    entries in the order [readdir] gives them.  [None] is a file or a
    directory the process may not read. *)
Inductive fsnode :=
| File (content : option str)
| Dir (listing : option (list (str * fsnode))).

Fixpoint lookup (name : str) (entries : list (str * fsnode)) : option fsnode :=
  match entries with
  | [] => None
  | (n, node) :: rest => if JS.eqb n name then Some node else lookup name rest
  end.

(** The node a path names, from the root of the file system. *)
Fixpoint resolve (root : fsnode) (p : list str) : option fsnode :=
  match p with
  | [] => Some root
  | c :: p' =>
      match root with
      | Dir (Some entries) =>
          match lookup c entries with
          | Some node => resolve node p'
          | None => None
          end
      | _ => None
      end
  end.

Definition path_string (p : list str) : str := lit "/" ++ join (lit "/") p.

Section Reader.

Variable JSON_parse : str -> option Json.value.

(** The [try] block around [readFile] and [JSON.parse] for the directory
    with this listing: [None] when either throws and [metadata] stays
    undefined. *)
Definition readMetadata (listing : option (list (str * fsnode)))
  : option Json.value :=
  match listing with
  | Some entries =>
      match lookup (lit "metadata.json") entries with
      | Some (File (Some content)) => JSON_parse content
      | _ => None
      end
  | None => None
  end.

(** The test [if (metadata)]: the value that makes the directory a
    transcript folder. *)
Definition transcriptMetadata (listing : option (list (str * fsnode)))
  : option Json.value :=
  match readMetadata listing with
  | Some v => if Json.truthy v then Some v else None
  | None => None
  end.

Definition relPath (relativePath name : str) : str :=
  if JS.truthy relativePath then relativePath ++ lit "/" ++ name else name.

(** The loop [for (const entry of entries)] of [readDir], with the
    recursive call given as [readDir]. *)
Definition readEntriesWith
    (readDir : fsnode -> str -> result (list (FolderNode Json.value)))
    (relativePath : str)
  : list (str * fsnode) -> result (list (FolderNode Json.value)) :=
  fix loop (entries : list (str * fsnode)) :=
    match entries with
    | [] => Ok []
    | (name, File _) :: rest => loop rest
    | (name, Dir listing as entry) :: rest =>
        match transcriptMetadata listing with
        | Some metadata =>
            match loop rest with
            | Ok nodes =>
                Ok (mkNode name (relPath relativePath name) transcript None
                           (Some metadata) :: nodes)
            | Err e => Err e
            end
        | None =>
            match readDir entry (relPath relativePath name) with
            | Ok children =>
                match loop rest with
                | Ok nodes =>
                    Ok (mkNode name (relPath relativePath name) folder
                               (Some children) None :: nodes)
                | Err e => Err e
                end
            | Err e => Err e
            end
        end
    end.

(** [readDir(dirPath, relativePath)], where [dir] is what [dirPath] names:
    [readdir] fails on what is not a directory or cannot be listed. *)
Fixpoint readDir (dir : fsnode) (relativePath : str) {struct dir}
  : result (list (FolderNode Json.value)) :=
  match dir with
  | File _ => Err ENOTDIR
  | Dir None => Err EACCES
  | Dir (Some entries) => readEntriesWith readDir relativePath entries
  end.

Definition readEntries := readEntriesWith readDir.

(** [readLibraryStructure()], with the file system and the components of
    [BASE_TRANSCRIPTS_DIR] given. *)
Definition readLibraryStructure (fs : fsnode) (baseDir : list str)
  : result (FolderNode Json.value) :=
  match resolve fs baseDir with
  | None =>
      Ok (mkNode (lit "transcripts") (path_string baseDir) folder (Some []) None)
  | Some dir =>
      match readDir dir [] with
      | Ok children =>
          Ok (mkNode (lit "transcripts") (path_string baseDir) folder
                     (Some children) None)
      | Err e => Err e
      end
  end.

End Reader.

(** Every directory of the tree can be listed. *)
Fixpoint listable (n : fsnode) : bool :=
  match n with
  | File _ => true
  | Dir None => false
  | Dir (Some entries) =>
      (fix all (es : list (str * fsnode)) : bool :=
         match es with
         | [] => true
         | (_, child) :: rest => listable child && all rest
         end) entries
  end.

Definition is_directory (e : str * fsnode) : bool :=
  match snd e with Dir _ => true | File _ => false end.

(** What the reader makes of one directory entry: the node of a
    subdirectory, a transcript entry with the metadata value when
    [metadata.json] gave a truthy one, a category folder with the nodes of
    its own entries otherwise. *)
Definition classified (parse : str -> option Json.value) (relativePath : str)
    (entry : str * fsnode) (node : FolderNode Json.value) : Prop :=
  node_name node = fst entry /\
  node_path node = relPath relativePath (fst entry) /\
  match snd entry with
  | File _ => False
  | Dir listing =>
      match transcriptMetadata parse listing with
      | Some metadata =>
          node_type node = transcript /\ node_metadata node = Some metadata /\
          node_children node = None
      | None =>
          node_type node = folder /\ node_metadata node = None /\
          exists children,
            readDir parse (Dir listing) (relPath relativePath (fst entry))
            = Ok children /\
            node_children node = Some children
      end
  end.

End Library.

(** ** Tree Summarizer *)

Module Summarizer.

(** The two markers, as surrogate pairs: U+1F4C4 and U+1F4C1. *)
Definition page_icon : str := [55357; 56516]%N.
Definition folder_icon : str := [55357; 56513]%N.

(** [s.split('\n').filter(Boolean)]. *)
Definition nonEmptyLines (s : str) : list str :=
  filter JS.truthy (split 10%N s).

Definition transcriptLines (indent name : str) (md : TranscriptMetadata)
  : list str :=
  [ indent ++ page_icon ++ lit " " ++ name;
    indent ++ lit "   Summary: " ++ summary (theme md);
    indent ++ lit "   Theme: " ++ primaryTheme (theme md) ++ lit " > "
           ++ subTheme (theme md) ].

Definition folderLine (indent name : str) : list str :=
  if JS.truthy indent then [indent ++ folder_icon ++ lit " " ++ name ++ lit "/"]
  else [].

Fixpoint folderTreeToString (node : FolderNode TranscriptMetadata)
    (indent : str) {struct node} : str :=
  match node with
  | mkNode name _ type children metadata =>
      let lines :=
        match type, metadata with
        | transcript, Some md => transcriptLines indent name md
        | transcript, None => []
        | folder, _ =>
            folderLine indent name ++
            match children with
            | Some cs =>
                flat_map
                  (fun child =>
                     nonEmptyLines (folderTreeToString child (indent ++ lit "  ")))
                  cs
            | None => []
            end
        end in
      join nl lines
  end.

(** *** The rendering of the specification *)

(** The indent of a depth: one fixed step of two spaces per level. *)
Fixpoint indentation (depth : nat) : str :=
  match depth with
  | O => []
  | S d => indentation d ++ lit "  "
  end.

(** The lines of a node at a depth: three for a transcript entry, a marker
    and the children one level deeper for a category folder, and no own
    line at depth 0, where the synthetic root is. *)
Fixpoint renderLines (depth : nat) (node : FolderNode TranscriptMetadata)
    {struct node} : list str :=
  match node with
  | mkNode name _ type children metadata =>
      match type, metadata with
      | transcript, Some md => transcriptLines (indentation depth) name md
      | transcript, None => []
      | folder, _ =>
          folderLine (indentation depth) name ++
          match children with
          | Some cs => flat_map (renderLines (S depth)) cs
          | None => []
          end
      end
  end.

(** No line feed in a string. *)
Definition oneLine (s : str) : bool := forallb (fun c => negb (N.eqb c 10)) s.

(** No line feed in any name, summary or theme of the tree. *)
Fixpoint oneLineTree (node : FolderNode TranscriptMetadata) : bool :=
  match node with
  | mkNode name _ _ children metadata =>
      oneLine name
      && match metadata with
         | Some md =>
             oneLine (summary (theme md)) && oneLine (primaryTheme (theme md))
             && oneLine (subTheme (theme md))
         | None => true
         end
      && match children with
         | Some cs => forallb oneLineTree cs
         | None => true
         end
  end.

End Summarizer.

(** ** Token estimate and truncation *)

Module Truncation.

(** [text.length]. *)
Definition length (s : str) : Z := Z.of_nat (List.length s).

(** [Math.ceil(n / d)] on integers. *)
Definition ceil_div (n d : Z) : Z := (- ((- n) / d))%Z.

Definition estimateTokens (text : str) : Z := ceil_div (length text) 4.

(** [s.slice(start, end)]: a negative index counts from the end, and both
    are clamped to the string. *)
Definition slice (s : str) (start end_ : Z) : str :=
  let len := length s in
  let from := if (start <? 0)%Z then Z.max (len + start) 0 else Z.min start len in
  let to := if (end_ <? 0)%Z then Z.max (len + end_) 0 else Z.min end_ len in
  firstn (Z.to_nat (to - from)) (skipn (Z.to_nat from) s).

(** [s.slice(start)]. *)
Definition slice_from (s : str) (start : Z) : str := slice s start (length s).

Definition middle_marker : str := nl ++ nl ++ lit "[... middle section ...]" ++ nl ++ nl.
Definition later_marker : str := nl ++ nl ++ lit "[... later section ...]" ++ nl ++ nl.

(** [truncateTranscript(text, maxTokens)] for an integer ceiling.  The two
    bounds of the middle slice are floors of halves of integers, which
    binary64 holds exactly. *)
Definition truncateTranscript (text : str) (maxTokens : Z) : str :=
  let estimated := estimateTokens text in
  if (estimated <=? maxTokens)%Z then text
  else
    let targetChars := (maxTokens * 4)%Z in
    let chunkSize := (targetChars / 3)%Z in
    let beginning := slice text 0 chunkSize in
    let middle :=
      slice text ((length text - chunkSize) / 2)%Z
                 ((length text + chunkSize) / 2)%Z in
    let end_ := slice_from text (- chunkSize)%Z in
    beginning ++ middle_marker ++ middle ++ later_marker ++ end_.

Definition defaultMaxTokens : Z := 150000.

(** The three slices the specification names. *)
Definition leading (n : Z) (text : str) : str := firstn (Z.to_nat n) text.
Definition trailing (n : Z) (text : str) : str :=
  skipn (List.length text - Z.to_nat n) text.
Definition centered (n : Z) (text : str) : str :=
  firstn (Z.to_nat n) (skipn (Z.to_nat ((length text - n) / 2)) text).

End Truncation.

(** ** Classifier *)

Module Classifier.

Import Summarizer Truncation.

Definition quoted (s : str) : str := dq ++ s ++ dq.

(** [folderTreeString || '(Empty - this will be the first transcript)']. *)
Definition treeOrEmpty (folderTreeString : str) : str :=
  if JS.truthy folderTreeString then folderTreeString
  else lit "(Empty - this will be the first transcript)".

(** The first template literal of [classifyAndOrganize]. *)
Definition incrementalPrompt
    (videoUrl videoTitle folderTreeString processedTranscript : str) : str :=
  lit "You are maintaining a knowledge library of audio/video transcripts.

SOURCE INFORMATION:
URL: " ++ videoUrl ++ lit "
Title: " ++ videoTitle ++ lit "

CURRENT LIBRARY STRUCTURE:
" ++ treeOrEmpty folderTreeString ++ lit "

NEW TRANSCRIPT TO ORGANIZE:
" ++ processedTranscript ++ lit "

YOUR TASK:
1. Analyze the new transcript's content and main themes
2. Review the existing library structure
3. Decide the optimal SINGLE-LEVEL category folder for this transcript

DECISION CRITERIA:
- Use existing folders when semantically appropriate (similar content/theme)
- Create new categories when the content doesn't fit existing ones
- Use kebab-case for folder names
- Keep categories broad enough to group related content but specific enough to be meaningful
- IMPORTANT: Use only ONE level of categorization (e.g., "
  ++ quoted (lit "ai-podcasts") ++ lit " not "
  ++ quoted (lit "technology/ai/podcasts") ++ lit ")

Respond with a JSON object (no markdown code blocks):
{
  " ++ quoted (lit "newTranscriptPath") ++ lit ": "
  ++ quoted (lit "category-name") ++ lit ",
  " ++ quoted (lit "reasoning") ++ lit ": "
  ++ quoted (lit "Explain why this category fits the content") ++ lit ",
  " ++ quoted (lit "confidence") ++ lit ": " ++ quoted (lit "high/medium/low")
  ++ lit "
}".

(** The second template literal. *)
Definition bootstrapPrompt (videoUrl videoTitle processedTranscript : str) : str :=
  lit "You are creating a knowledge library of audio/video transcripts.

SOURCE INFORMATION:
URL: " ++ videoUrl ++ lit "
Title: " ++ videoTitle ++ lit "

TRANSCRIPT:
" ++ processedTranscript ++ lit "

This is the FIRST transcript in the library. Create an initial folder structure that:
- Uses a SINGLE level of categorization
- Is specific enough to be useful but not over-categorized
- Uses kebab-case for folder names
- Sets a good foundation for future organization
- Example: " ++ quoted (lit "ai-podcasts") ++ lit " or "
  ++ quoted (lit "business-interviews") ++ lit " (NOT "
  ++ quoted (lit "technology/ai/podcasts") ++ lit ")

Respond with a JSON object (no markdown code blocks):
{
  " ++ quoted (lit "newTranscriptPath") ++ lit ": "
  ++ quoted (lit "category-name") ++ lit ",
  " ++ quoted (lit "reasoning") ++ lit ": "
  ++ quoted (lit "Explain why you chose this category") ++ lit ",
  " ++ quoted (lit "confidence") ++ lit ": " ++ quoted (lit "high/medium/low")
  ++ lit "
}".

(** [libraryStructure.children && libraryStructure.children.length > 0]. *)
Definition hasExistingTranscripts (M : Type) (libraryStructure : FolderNode M)
  : bool :=
  match node_children libraryStructure with
  | Some (_ :: _) => true
  | _ => false
  end.

(** The prompt [classifyAndOrganize] sends. *)
Definition prompt (transcript videoUrl videoTitle : str)
    (libraryStructure : FolderNode TranscriptMetadata) : str :=
  let processedTranscript := truncateTranscript transcript defaultMaxTokens in
  let folderTreeString := folderTreeToString libraryStructure [] in
  if hasExistingTranscripts libraryStructure
  then incrementalPrompt videoUrl videoTitle folderTreeString processedTranscript
  else bootstrapPrompt videoUrl videoTitle processedTranscript.



(** A transcript entry somewhere in the tree. *)
Fixpoint hasTranscriptEntry (M : Type) (node : FolderNode M) : bool :=
  match node with
  | mkNode _ _ transcript _ _ => true
  | mkNode _ _ folder children _ =>
      match children with
      | Some cs => existsb (@hasTranscriptEntry M) cs
      | None => false
      end
  end.

End Classifier.

(** ** Pipeline Orchestrator *)

Module Pipeline.

(** The four files [main] writes into the destination folder. *)
Inductive Artifact := RawText | RawJson | AssembledText | Metadata.

Definition fileName (a : Artifact) : str :=
  match a with
  | RawText => lit "transcription-raw.txt"
  | RawJson => lit "transcription-raw.json"
  | AssembledText => lit "transcription.txt"
  | Metadata => lit "metadata.json"
  end.

(** The array given to [Promise.all], in its order. *)
Definition artifacts : list Artifact := [RawText; RawJson; AssembledText; Metadata].

(** What the world outside answers to each awaited step of one run. *)
Record World := mkWorld {
  (** the title and the audio were obtained: the download, or the checks on
      a local file and the extraction of its audio *)
  acquire_ok : bool;
  needsCleanup : bool;
  transcribe_ok : bool;
  readLibrary_ok : bool;
  classify_ok : bool;
  mkdir_ok : bool;
  write_ok : Artifact -> bool;
  unlink_ok : bool
}.

(** The destination folder: whether it exists and which files it holds. *)
Record Disk := mkDisk {
  outputDir : bool;
  files : list Artifact
}.

Definition emptyDisk : Disk := {| outputDir := false; files := [] |}.

(** An awaited step: it changes the disk, and resolves or rejects. *)
Definition M (A : Type) : Type := Disk -> option A * Disk.

Definition ret {A} (a : A) : M A := fun d => (Some a, d).

Definition bind {A B} (m : M A) (k : A -> M B) : M B :=
  fun d => match m d with
           | (Some a, d') => k a d'
           | (None, d') => (None, d')
           end.

Notation "m ;; k" := (bind m (fun _ => k)) (at level 61, right associativity).

(** A step that leaves the destination folder alone. *)
Definition await (ok : bool) : M unit :=
  fun d => (if ok then Some tt else None, d).

(** [fs.mkdir(outputDir, { recursive: true })]. *)
Definition mkdir (ok : bool) : M unit :=
  fun d => if ok then (Some tt, {| outputDir := true; files := files d |})
           else (None, d).

(** [Promise.all] over the four [writeFile] calls: every write is started
    and runs to its own end, and the whole rejects when one of them does. *)
Definition writeAll (ok : Artifact -> bool) : M unit :=
  fun d =>
    (if forallb ok artifacts then Some tt else None,
     {| outputDir := outputDir d; files := files d ++ filter ok artifacts |}).

(** The body of [main]. *)
Definition main (w : World) : M unit :=
  await (acquire_ok w) ;;
  await (transcribe_ok w) ;;
  await (readLibrary_ok w) ;;
  await (classify_ok w) ;;
  mkdir (mkdir_ok w) ;;
  writeAll (write_ok w) ;;
  (if needsCleanup w then await (unlink_ok w) else ret tt).

(** One run from a destination that does not exist yet: whether it ended
    without [process.exitCode = 1], and the disk it leaves. *)
Definition run (w : World) : bool * Disk :=
  match main w emptyDisk with
  | (Some _, d) => (true, d)
  | (None, d) => (false, d)
  end.

Definition holds (d : Disk) (a : Artifact) : bool :=
  existsb (fun b => JS.eqb (fileName a) (fileName b)) (files d).

Definition holdsAll (d : Disk) : bool := forallb (holds d) artifacts.
Definition holdsNone (d : Disk) : bool := negb (existsb (holds d) artifacts).

(** Every step before the writes resolved. *)
Definition reachesWrites (w : World) : bool :=
  acquire_ok w && transcribe_ok w && readLibrary_ok w && classify_ok w
  && mkdir_ok w.

(** Equality of artifacts. *)
Definition same (a b : Artifact) : bool :=
  match a, b with
  | RawText, RawText | RawJson, RawJson | AssembledText, AssembledText
  | Metadata, Metadata => true
  | _, _ => false
  end.

End Pipeline.

(** ** Input kind, media types and titles *)

Module Input.

(** [s.startsWith(prefix)]. *)
Fixpoint startsWith (prefix s : str) : bool :=
  match prefix, s with
  | [], _ => true
  | p :: prefix', c :: s' => N.eqb p c && startsWith prefix' s'
  | _ :: _, [] => false
  end.

Definition isUrl (input : str) : bool :=
  startsWith (lit "http://") input || startsWith (lit "https://") input.

(** [list.includes(x)] on strings. *)
Definition includes (list : list str) (x : str) : bool := existsb (JS.eqb x) list.

Definition MEDIA_EXTENSIONS : list str :=
  [ lit ".mp3"; lit ".m4a"; lit ".wav"; lit ".ogg"; lit ".flac"; lit ".mp4";
    lit ".mkv"; lit ".webm"; lit ".mov"; lit ".avi" ].

(** The array literal of [isVideoFile]. *)
Definition VIDEO_EXTENSIONS : list str :=
  [ lit ".mp4"; lit ".mkv"; lit ".webm"; lit ".mov"; lit ".avi" ].

(** The characters the first [replace] of a title looks for: [<], [>],
    [:], the double quote, [/], the backslash, [|], [?] and the star. *)
Definition is_forbidden (c : char) : bool :=
  N.eqb c 60 || N.eqb c 62 || N.eqb c 58 || N.eqb c 34 || N.eqb c 47
  || N.eqb c 92 || N.eqb c 124 || N.eqb c 63 || N.eqb c 42.

(** The first [replace]: a dash for each of these characters. *)
Definition replaceForbidden (s : str) : str :=
  map (fun c => if is_forbidden c then 45%N else c) s.

(** [s.replace(/\s+/g, '-')]: one dash for each maximal run of white
    space, written where the run ends. *)
Fixpoint replaceSpaces (s : str) : str :=
  match s with
  | [] => []
  | c :: rest =>
      if is_space c then
        match rest with
        | c' :: _ => if is_space c' then replaceSpaces rest
                     else 45%N :: replaceSpaces rest
        | [] => [45%N]
        end
      else c :: replaceSpaces rest
  end.

Fixpoint trimStart (s : str) : str :=
  match s with
  | c :: rest => if is_space c then trimStart rest else s
  | [] => []
  end.

(** [s.trim()]. *)
Definition trim (s : str) : str := rev (trimStart (rev (trimStart s))).

(** The decimal digits of a whole number, as a template literal writes
    [Date.now()]. *)
Definition decimal (n : N) : str :=
  lit (NilEmpty.string_of_uint (N.to_uint n)).

Section Builtins.

(** [path.extname], [path.basename] and [String.prototype.toLowerCase],
    which the platform gives. *)
Variable extname : str -> str.
Variable basename : str -> str -> str.
Variable toLowerCase : str -> str.

Definition isVideoFile (filePath : str) : bool :=
  let ext := toLowerCase (extname filePath) in
  includes VIDEO_EXTENSIONS ext.

(** The test of [main] on a local file:
    [MEDIA_EXTENSIONS.includes(ext)]. *)
Definition isSupported (resolvedPath : str) : bool :=
  let ext := toLowerCase (extname resolvedPath) in
  includes MEDIA_EXTENSIONS ext.

(** The chain both title functions end with. *)
Definition sanitize (s : str) : str :=
  Truncation.slice (toLowerCase (replaceSpaces (replaceForbidden s))) 0 100.

Definition getTitleFromPath (filePath : str) : str :=
  sanitize (basename filePath (extname filePath)).

(** [getVideoTitle], with what the title lookup printed ([None] when it
    failed) and the clock. *)
Definition getVideoTitle (stdout : option str) (now : N) : str :=
  match stdout with
  | Some out => sanitize (trim out)
  | None => lit "video-" ++ decimal now
  end.

(** What [main] does with a local file, after it was found to exist. *)
Inductive LocalFile :=
| Unsupported
| ExtractAudio
| UseAsAudio.

Definition localFile (resolvedPath : str) : LocalFile :=
  if negb (isSupported resolvedPath) then Unsupported
  else if isVideoFile resolvedPath then ExtractAudio
  else UseAsAudio.

End Builtins.

(** A character a title may hold: not white space and not forbidden. *)
Definition pathSafe (c : char) : bool := negb (is_space c) && negb (is_forbidden c).

(** Lower-casing of the letters A to Z alone. *)
Definition asciiLower (s : str) : str :=
  map (fun c => if N.leb 65 c && N.leb c 90 then (c + 32)%N else c) s.

End Input.

(** ** Shapes of library trees *)

Module Tree.

Import Library.

(** The invariant of Library Nodes: a transcript entry has metadata that
    [ok] accepts and no children, a category folder has children and no
    metadata. *)
Fixpoint wellFormed (M : Type) (ok : M -> bool) (n : FolderNode M) : bool :=
  match n with
  | mkNode _ _ transcript None (Some metadata) => ok metadata
  | mkNode _ _ folder (Some cs) None => forallb (wellFormed ok) cs
  | _ => false
  end.

(** The path of a node is the path of its parent, a slash and its name,
    and the name alone under the root. *)
Fixpoint pathsUnder (M : Type) (parent : str) (n : FolderNode M) : bool :=
  match n with
  | mkNode name path _ children _ =>
      JS.eqb path (relPath parent name)
      && match children with
         | Some cs => forallb (pathsUnder path) cs
         | None => true
         end
  end.

(** Every directory the reader has to list can be listed: the directory
    itself and, in turn, each subdirectory that is not a transcript
    folder. *)
Fixpoint enterable (parse : str -> option Json.value) (n : fsnode) : bool :=
  match n with
  | File _ => false
  | Dir None => false
  | Dir (Some entries) =>
      (fix all (es : list (str * fsnode)) : bool :=
         match es with
         | [] => true
         | (_, File _) :: rest => all rest
         | (_, Dir listing as child) :: rest =>
             match transcriptMetadata parse listing with
             | Some _ => true
             | None => enterable parse child
             end && all rest
         end) entries
  end.

(** The transcript entries and the category folders the summarizer walks
    through: it does not look below a transcript entry. *)
Fixpoint entries (n : FolderNode TranscriptMetadata) : nat :=
  match n with
  | mkNode _ _ transcript _ (Some _) => 1
  | mkNode _ _ transcript _ None => 0
  | mkNode _ _ folder children _ =>
      match children with
      | Some cs => list_sum (map entries cs)
      | None => 0
      end
  end.

Fixpoint folders (n : FolderNode TranscriptMetadata) : nat :=
  match n with
  | mkNode _ _ transcript _ _ => 0
  | mkNode _ _ folder children _ =>
      S match children with
        | Some cs => list_sum (map folders cs)
        | None => 0
        end
  end.

End Tree.

(** ** Tokens as records *)

Module Tokens.

Import Normalizer.

(** A token given back as a provider record with every field present. *)
Definition asResponse (w : Word) : WordResponse :=
  {| r_text := Some (text w); r_start := Some (start w);
     r_end := Some (end_ w); r_type := Some (type w);
     r_speaker_id := Some (speaker_id w) |}.

(** The record has no speaker id: absent or empty. *)
Definition noSpeaker (r : WordResponse) : bool :=
  match r_speaker_id r with
  | Some (_ :: _) => false
  | _ => true
  end.

End Tokens.

(** ** Sample inputs *)

Module Samples.

Import Normalizer Library Summarizer Pipeline.

(** A spacing token of speaker A, then a word of speaker B. *)
Definition spacing_then_word : list Word :=
  [ mkWord (lit " ") 0%float 0.5%float (lit "spacing") (lit "A");
    mkWord (lit "Hi") 0.5%float 1%float (lit "word") (lit "B") ].

(** The five tokens of the end-to-end scenario. *)
Definition hello_world : list Word :=
  [ mkWord (lit "Hello") 0%float 0.5%float (lit "word") (lit "A");
    mkWord (lit " ") 0.5%float 0.5%float (lit "spacing") (lit "A");
    mkWord (lit "world") 0.5%float 1%float (lit "word") (lit "A");
    mkWord (lit ".") 1%float 1%float (lit "punctuation") (lit "A");
    mkWord (lit "Hi") 2%float 2.5%float (lit "word") (lit "B") ].

(** A record with nothing but falsy fields. *)
Definition all_falsy : WordResponse :=
  {| r_text := Some []; r_start := Some (0 / 0)%float;
     r_end := Some (- 0)%float; r_type := Some []; r_speaker_id := Some [] |}.

(** The text [{"title": "talk"}]. *)
Definition sample_metadata : str :=
  lit "{" ++ dq ++ lit "title" ++ dq ++ lit ": " ++ dq ++ lit "talk" ++ dq
  ++ lit "}".

(** An archive with a file, a category holding one transcript entry, and a
    folder whose metadata is cut short. *)
Definition sample_entries : list (str * fsnode) :=
  [ (lit "notes.txt", File (Some (lit "to do")));
    (lit "ai-podcasts",
     Dir (Some [ (lit "talk-2024-05-01",
                  Dir (Some [ (lit "metadata.json", File (Some sample_metadata));
                              (lit "transcription.txt", File (Some (lit "A: Hi"))) ])) ]));
    (lit "broken", Dir (Some [ (lit "metadata.json", File (Some (lit "{oops"))) ])) ].

(** The nodes the reader gives for it. *)
Definition sample_nodes : list (FolderNode Json.value) :=
  [ mkNode (lit "ai-podcasts") (lit "ai-podcasts") folder
      (Some [ mkNode (lit "talk-2024-05-01") (lit "ai-podcasts/talk-2024-05-01")
                transcript None
                (Some (Json.VObject [(lit "title", Json.VString (lit "talk"))])) ])
      None;
    mkNode (lit "broken") (lit "broken") folder (Some []) None ].

(** A folder whose [metadata.json] holds the text [null]. *)
Definition null_metadata : list (str * fsnode) :=
  [ (lit "talk-2024-05-01",
     Dir (Some [ (lit "metadata.json", File (Some (lit "null"))) ])) ].

(** A home directory with no [Documents/transcripts] yet. *)
Definition fresh_home : fsnode :=
  Dir (Some [ (lit "home",
               Dir (Some [ (lit "ada",
                            Dir (Some [ (lit "Documents", Dir (Some [])) ])) ])) ]).

(** The components of [~/Documents/transcripts]. *)
Definition transcripts_dir : list str :=
  [lit "home"; lit "ada"; lit "Documents"; lit "transcripts"].

(** The transcript entry of the end-to-end scenario, in the category
    [ai-podcasts]. *)
Definition safety_talk : FolderNode TranscriptMetadata :=
  mkNode (lit "safety-talk-2024-05-01") (lit "ai-podcasts/safety-talk-2024-05-01")
    transcript None
    (Some {| sourceUrl := lit "https://example.org/watch";
             title := lit "safety-talk";
             date := lit "2024-05-01";
             theme := {| primaryTheme := lit "ai-podcasts";
                         subTheme := lit "safety-talk";
                         folderName := lit "ai-podcasts";
                         confidence := high;
                         summary := lit "Discussion of AI safety" |};
             language := Some (lit "en");
             language_confidence := Some 0.5%float;
             wordsDetected := Some 1200%float |}).

(** The root over the one category. *)
Definition one_category (base : str) : FolderNode TranscriptMetadata :=
  mkNode (lit "transcripts") base folder
    (Some [ mkNode (lit "ai-podcasts") (lit "ai-podcasts") folder
              (Some [safety_talk]) None ])
    None.

(** The tree the reader gives on the first run. *)
Definition empty_library : FolderNode TranscriptMetadata :=
  mkNode (lit "transcripts") (lit "/home/ada/Documents/transcripts") folder
    (Some []) None.

(** A library with one category folder and nothing in it. *)
Definition empty_category : FolderNode TranscriptMetadata :=
  mkNode (lit "transcripts") (lit "/home/ada/Documents/transcripts") folder
    (Some [ mkNode (lit "drafts") (lit "drafts") folder (Some []) None ])
    None.

(** Every step succeeds. *)
Definition fair_weather : World :=
  {| acquire_ok := true; needsCleanup := true; transcribe_ok := true;
     readLibrary_ok := true; classify_ok := true; mkdir_ok := true;
     write_ok := fun _ => true; unlink_ok := true |}.

(** Every step succeeds but the write of [transcription-raw.txt]. *)
Definition raw_text_write_fails : World :=
  {| acquire_ok := true; needsCleanup := true; transcribe_ok := true;
     readLibrary_ok := true; classify_ok := true; mkdir_ok := true;
     write_ok := fun a => match a with RawText => false | _ => true end;
     unlink_ok := true |}.

End Samples.

(** ** More sample inputs *)

Module MoreSamples.

Import Library Samples.

(** A file system whose [/archive] holds the sample archive. *)
Definition archive_fs : fsnode :=
  Dir (Some [ (lit "archive", Dir (Some sample_entries)) ]).

(** The tree the reader gives for it. *)
Definition archive_tree : FolderNode Json.value :=
  mkNode (lit "transcripts") (lit "/archive") folder (Some sample_nodes) None.

End MoreSamples.

(** * Properties *)

(** ** Strings *)

Module JSFacts.

Lemma eqb_eq (a b : str) : JS.eqb a b = true <-> a = b.
Proof.
  revert b; induction a as [|x a IH]; intros [|y b]; simpl; split;
    try discriminate; try reflexivity.
  - intros H. apply andb_true_iff in H as [Hx Hab].
    apply N.eqb_eq in Hx. apply IH in Hab. congruence.
  - intros H. injection H as -> ->. rewrite N.eqb_refl. simpl.
    apply IH. reflexivity.
Qed.

Lemma eqb_refl (a : str) : JS.eqb a a = true.
Proof. apply eqb_eq. reflexivity. Qed.

Lemma eqb_neq (a b : str) : JS.eqb a b = false <-> a <> b.
Proof.
  split.
  - intros H E. apply eqb_eq in E. congruence.
  - intros H. destruct (JS.eqb a b) eqn:E; [|reflexivity].
    apply eqb_eq in E. contradiction.
Qed.

Lemma eqb_sym (a b : str) : JS.eqb a b = JS.eqb b a.
Proof.
  destruct (JS.eqb b a) eqn:E.
  - apply eqb_eq in E. subst. apply eqb_refl.
  - apply eqb_neq. apply eqb_neq in E. congruence.
Qed.

Lemma truthy_nonempty (s : str) : JS.truthy s = true <-> s <> [].
Proof. destruct s; simpl; split; congruence. Qed.

(** The replacement, one match at a time: at a match the captured
    character is written and the scan goes on after the match; elsewhere
    one character is copied. *)
Lemma collapse_space_punct_match (c : char) (rest : str) :
  collapse_space_punct (c :: rest) =
  match match_space_punct (c :: rest) with
  | Some (p, after) => p :: collapse_space_punct after
  | None => c :: collapse_space_punct rest
  end.
Proof.
  assert (Hpunct : forall p, is_punct p = true -> is_space p = false).
  { intros p Hp. unfold is_punct in Hp. unfold is_space.
    repeat (apply orb_true_iff in Hp as [Hp|Hp]);
      apply N.eqb_eq in Hp; subst; reflexivity. }
  assert (Htail : forall s p after,
             match_space_punct_tail s = Some (p, after) ->
             collapse_space_punct s = p :: collapse_space_punct after).
  { induction s as [|x s IH]; intros p after H; simpl in H; [discriminate|].
    destruct (is_space x) eqn:Hx.
    - simpl. rewrite Hx, H. apply IH. exact H.
    - destruct (is_punct x) eqn:Hp; [|discriminate].
      injection H as <- <-. simpl. rewrite Hx. reflexivity. }
  simpl. destruct (is_space c) eqn:Hc; [|reflexivity].
  destruct (match_space_punct_tail rest) as [[p after]|] eqn:E; [|reflexivity].
  apply Htail. exact E.
Qed.

End JSFacts.

(** ** Transcript Assembler *)

Module AssemblerFacts.

Import Assembler Samples JSFacts.

Lemma runs_cons (w : Word) (rest : list Word) :
  exists r rs, runs (w :: rest) = (w :: r) :: rs.
Proof.
  simpl. destruct (runs rest) as [|[|w' r] rs]; eauto.
  destruct (eqb (speaker_id w) (speaker_id w')); eauto.
Qed.

Lemma runs_nonempty (ws : list Word) : Forall (fun r => r <> []) (runs ws).
Proof.
  induction ws as [|w rest IH]; simpl; [constructor|].
  destruct (runs rest) as [|[|w' r] rs].
  - repeat constructor. discriminate.
  - repeat constructor. discriminate.
  - inversion IH; subst.
    destruct (eqb (speaker_id w) (speaker_id w'));
      repeat constructor; try discriminate; assumption.
Qed.

(** The runs are a division of the sequence, in order. *)
Lemma runs_concat (ws : list Word) : List.concat (runs ws) = ws.
Proof.
  induction ws as [|w rest IH]; simpl; [reflexivity|].
  pose proof (runs_nonempty rest) as Hne.
  destruct (runs rest) as [|[|w' r] rs].
  - simpl in *. subst. reflexivity.
  - inversion Hne; subst. congruence.
  - destruct (eqb (speaker_id w) (speaker_id w')); simpl in *; congruence.
Qed.

(** Each run has one speaker. *)
Lemma runs_one_speaker (ws : list Word) :
  forallb one_speaker (runs ws) = true.
Proof.
  induction ws as [|w rest IH]; simpl; [reflexivity|].
  destruct (runs rest) as [|[|w' r] rs].
  - unfold one_speaker. simpl. rewrite eqb_refl. reflexivity.
  - unfold one_speaker. simpl. rewrite eqb_refl. reflexivity.
  - simpl in IH. apply andb_true_iff in IH as [Hr Hrs].
    destruct (eqb (speaker_id w) (speaker_id w')) eqn:E; simpl.
    + apply eqb_eq in E. rewrite Hrs, andb_true_r.
      unfold one_speaker in *. simpl in *. rewrite <- E in *.
      rewrite !eqb_refl in *. exact Hr.
    + rewrite Hr, Hrs. unfold one_speaker. simpl. rewrite eqb_refl.
      reflexivity.
Qed.

(** Each run is maximal: the next one starts with another speaker. *)
Lemma runs_separated (ws : list Word) : separated (runs ws) = true.
Proof.
  induction ws as [|w rest IH]; simpl; [reflexivity|].
  pose proof (runs_nonempty rest) as Hne.
  destruct (runs rest) as [|[|w' r] rs] eqn:E.
  - reflexivity.
  - inversion Hne; subst. congruence.
  - destruct (eqb (speaker_id w) (speaker_id w')) eqn:Es.
    + apply eqb_eq in Es. simpl in *. destruct rs as [|r2 rs]; [reflexivity|].
      rewrite Es. exact IH.
    + change (negb (eqb (speaker_id w) (speaker_id w'))
              && separated ((w' :: r) :: rs) = true).
      rewrite IH, Es. reflexivity.
Qed.

Lemma fragments_cons (w : Word) (r : list Word) :
  fragments (w :: r) = push [] w ++ fragments r.
Proof.
  unfold fragments, push. simpl. destruct (not_spacing w); reflexivity.
Qed.

Lemma push_app (sentence : list str) (w : Word) :
  push sentence w = sentence ++ push [] w.
Proof.
  unfold push. destruct (not_spacing w); [reflexivity|].
  symmetry. apply app_nil_r.
Qed.

(** The loop of the source adds to [lines] what [emit] computes. *)
Lemma fold_step_emit (ws : list Word) (st : state) :
  lines (flush (fold_left step ws st)) =
  lines st ++ emit (currentSpeaker st) (currentSentence st) ws.
Proof.
  revert st. induction ws as [|w rest IH]; intros [ls sp se].
  - simpl. unfold flush, close. simpl.
    destruct se; simpl; [rewrite app_nil_r|]; reflexivity.
  - cbn [fold_left emit]. rewrite IH. unfold step, push, not_spacing.
    cbn [currentSpeaker currentSentence lines].
    destruct (eqb (speaker_id w) sp) eqn:Es; cbn [negb].
    + destruct (negb (eqb (type w) (lit "spacing"))); reflexivity.
    + unfold flush, close. cbn [currentSpeaker currentSentence lines].
      destruct se as [|f se];
        destruct (negb (eqb (type w) (lit "spacing")));
        cbn [set_speaker push_text currentSpeaker currentSentence lines];
        rewrite <- ?app_assoc; reflexivity.
Qed.

(** [emit] goes through the runs: the first run continues the current
    sentence when it has the current speaker. *)
Lemma emit_runs (ws : list Word) :
  forall speaker sentence,
    emit speaker sentence ws =
    match runs ws with
    | [] => close speaker sentence
    | r :: rs =>
        if eqb (run_speaker r) speaker
        then close speaker (sentence ++ fragments r) ++ flat_map run_lines rs
        else close speaker sentence ++ flat_map run_lines (r :: rs)
    end.
Proof.
  induction ws as [|w rest IH]; intros speaker sentence; [reflexivity|].
  pose proof (runs_nonempty rest) as Hne.
  cbn [emit runs].
  destruct (eqb (speaker_id w) speaker) eqn:Es.
  - apply eqb_eq in Es. subst speaker. rewrite IH.
    destruct (runs rest) as [|[|w' r] rs].
    + cbn [run_speaker]. rewrite eqb_refl, fragments_cons.
      cbn [flat_map fragments filter map]. rewrite !app_nil_r.
      rewrite <- push_app. reflexivity.
    + inversion Hne; subst. congruence.
    + cbn [run_speaker]. rewrite (eqb_sym (speaker_id w') (speaker_id w)).
      destruct (eqb (speaker_id w) (speaker_id w')) eqn:E.
      * cbn [run_speaker]. rewrite eqb_refl.
        rewrite (fragments_cons w (w' :: r)), (push_app sentence w).
        rewrite <- app_assoc. reflexivity.
      * cbn [run_speaker]. rewrite eqb_refl.
        rewrite (fragments_cons w []). cbn [fragments filter map].
        rewrite app_nil_r, <- push_app. reflexivity.
  - rewrite IH.
    destruct (runs rest) as [|[|w' r] rs].
    + cbn [run_speaker flat_map]. rewrite Es. unfold run_lines.
      cbn [run_speaker]. rewrite fragments_cons.
      cbn [fragments filter map]. rewrite !app_nil_r. reflexivity.
    + inversion Hne; subst. congruence.
    + cbn [run_speaker]. rewrite (eqb_sym (speaker_id w') (speaker_id w)).
      destruct (eqb (speaker_id w) (speaker_id w')) eqn:E;
        cbn [run_speaker flat_map]; rewrite Es.
      * unfold run_lines at 2. cbn [run_speaker].
        rewrite (fragments_cons w (w' :: r)). reflexivity.
      * change (run_lines [w]) with (close (speaker_id w) (fragments [w])).
        rewrite (fragments_cons w []). cbn [fragments filter map].
        rewrite app_nil_r. reflexivity.
Qed.

Lemma fragments_has_text (r : list Word) :
  has_text r = JS.truthy (List.concat (map (fun f => [0%N]) (fragments r))).
Proof.
  unfold has_text, fragments.
  induction r as [|w r IH]; simpl; [reflexivity|].
  destruct (not_spacing w); simpl; [reflexivity|exact IH].
Qed.

Lemma run_lines_has_text (r : list Word) :
  run_lines r = if has_text r then [run_line r] else [].
Proof.
  rewrite fragments_has_text. unfold run_lines, run_line, close.
  destruct (fragments r); reflexivity.
Qed.

Lemma flat_map_run_lines (rs : list (list Word)) :
  flat_map run_lines rs = map run_line (filter has_text rs).
Proof.
  induction rs as [|r rs IH]; simpl; [reflexivity|].
  rewrite run_lines_has_text, IH. destruct (has_text r); reflexivity.
Qed.

(** The lines of the transcript are the lines of the runs that have text. *)
Lemma transcriptLines_runs (ws : list Word) :
  transcriptLines ws = map run_line (filter has_text (runs ws)).
Proof.
  rewrite <- flat_map_run_lines.
  destruct ws as [|w0 rest]; [reflexivity|].
  unfold transcriptLines. rewrite fold_step_emit.
  cbn [lines currentSpeaker currentSentence app].
  rewrite emit_runs.
  destruct (runs_cons w0 rest) as (r & rs & ->).
  cbn [run_speaker]. rewrite eqb_refl. reflexivity.
Qed.

(** C1, as amended: the transcript is the ordered sequence of
    ["speakerId: joined text"] lines, one for each maximal run of
    consecutive tokens with one speaker id that holds a token other than
    spacing, and none for a run of spacing tokens only; the runs divide the
    sequence in order, each has one speaker and none can be extended; the
    empty sequence gives the empty string. *)
Theorem wordsToTranscript_one_line_per_run_with_text :
  wordsToTranscript [] = [] /\
  forall ws : list Word,
    wordsToTranscript ws = join nl (transcriptLines ws) /\
    transcriptLines ws = map run_line (filter has_text (runs ws)) /\
    List.length (transcriptLines ws) = List.length (filter has_text (runs ws)) /\
    List.concat (runs ws) = ws /\
    forallb one_speaker (runs ws) = true /\
    separated (runs ws) = true.
Proof.
  split; [reflexivity|]. intros ws. repeat split.
  - destruct ws; reflexivity.
  - apply transcriptLines_runs.
  - rewrite transcriptLines_runs. apply length_map.
  - apply runs_concat.
  - apply runs_one_speaker.
  - apply runs_separated.
Qed.

(** C1, as stated, fails: two maximal runs, one line. *)
Lemma wordsToTranscript_spacing_run_gives_no_line :
  wordsToTranscript spacing_then_word = lit "B: Hi" /\
  runs spacing_then_word
  = [[mkWord (lit " ") 0%float 0.5%float (lit "spacing") (lit "A")];
     [mkWord (lit "Hi") 0.5%float 1%float (lit "word") (lit "B")]] /\
  List.length (transcriptLines spacing_then_word)
  <> List.length (runs spacing_then_word).
Proof.
  split; [reflexivity|]. split; [reflexivity|].
  vm_compute. discriminate.
Qed.

(** C2: the five tokens give ["A: Hello world.\nB: Hi"]: the fragments
    joined with single spaces, the space before the full stop removed, the
    two lines joined by a line feed. *)
Theorem wordsToTranscript_hello_world :
  wordsToTranscript hello_world = lit "A: Hello world." ++ nl ++ lit "B: Hi".
Proof. vm_compute. reflexivity. Qed.

(** The same however the tokens are timed. *)
Lemma wordsToTranscript_hello_world_any_times (t : nat -> Num.number * Num.number) :
  wordsToTranscript
    [ mkWord (lit "Hello") (fst (t 0)) (snd (t 0)) (lit "word") (lit "A");
      mkWord (lit " ") (fst (t 1)) (snd (t 1)) (lit "spacing") (lit "A");
      mkWord (lit "world") (fst (t 2)) (snd (t 2)) (lit "word") (lit "A");
      mkWord (lit ".") (fst (t 3)) (snd (t 3)) (lit "punctuation") (lit "A");
      mkWord (lit "Hi") (fst (t 4)) (snd (t 4)) (lit "word") (lit "B") ]
  = lit "A: Hello world." ++ nl ++ lit "B: Hi".
Proof. reflexivity. Qed.

End AssemblerFacts.

(** ** Token Normalizer *)

Module NormalizerFacts.

Import Normalizer Samples JSFacts.

Lemma or_str_absent (d : str) : or_str None d = d.
Proof. reflexivity. Qed.

Lemma or_str_present (s d : str) : s <> [] -> or_str (Some s) d = s.
Proof. destruct s; [congruence|reflexivity]. Qed.

Lemma or_str_empty (d : str) : or_str (Some []) d = d.
Proof. reflexivity. Qed.


Lemma or_num_present (x d : Num.number) :
  Num.truthy x = true -> or_num (Some x) d = x.
Proof. intros H. unfold or_num. rewrite H. reflexivity. Qed.

(** C3: the normalized sequence has the length and the order of the
    records, each token made from the record at its place alone; an absent
    text gives [''], an absent start or end [0], an absent kind ['word'],
    an absent speaker id ['unknown'], and a field that is present and
    truthy is kept.  [normalize] is a total function: no record makes it
    throw. *)
Theorem normalize_one_to_one_with_defaults (rs : list WordResponse) :
  List.length (normalize rs) = List.length rs /\
  (forall i, nth_error (normalize rs) i = option_map normalizeWord (nth_error rs i)) /\
  (forall w,
      (r_text w = None -> text (normalizeWord w) = []) /\
      (r_start w = None -> start (normalizeWord w) = 0%float) /\
      (r_end w = None -> end_ (normalizeWord w) = 0%float) /\
      (r_type w = None -> type (normalizeWord w) = lit "word") /\
      (r_speaker_id w = None -> speaker_id (normalizeWord w) = lit "unknown") /\
      (forall s, r_text w = Some s -> text (normalizeWord w) = s) /\
      (forall x, r_start w = Some x -> Num.truthy x = true ->
                 start (normalizeWord w) = x) /\
      (forall x, r_end w = Some x -> Num.truthy x = true ->
                 end_ (normalizeWord w) = x) /\
      (forall s, r_type w = Some s -> s <> [] -> type (normalizeWord w) = s) /\
      (forall s, r_speaker_id w = Some s -> s <> [] ->
                 speaker_id (normalizeWord w) = s)).
Proof.
  split; [apply length_map|]. split; [intros i; apply nth_error_map|].
  intros [t s e k sp]; cbn [normalizeWord r_text r_start r_end r_type
    r_speaker_id text start end_ type speaker_id].
  repeat split; try (intros ->; reflexivity).
  - intros s0 ->. destruct s0; reflexivity.
  - intros x -> Hx. apply or_num_present. exact Hx.
  - intros x -> Hx. apply or_num_present. exact Hx.
  - intros s0 -> Hs. apply or_str_present. exact Hs.
  - intros s0 -> Hs. apply or_str_present. exact Hs.
Qed.

Example normalizeWord_all_falsy :
  normalizeWord all_falsy
  = mkWord [] 0%float 0%float (lit "word") (lit "unknown").
Proof. reflexivity. Qed.


End NormalizerFacts.

(** ** JSON.parse *)

Module JsonFacts.

Import Samples.

Example parse_null : Json.parse (lit "null") = Some Json.VNull.
Proof. reflexivity. Qed.

Example parse_object :
  Json.parse sample_metadata
  = Some (Json.VObject [(lit "title", Json.VString (lit "talk"))]).
Proof. reflexivity. Qed.

Example parse_nested :
  Json.parse (lit " [1, -2.50e-3, [true, false], {}, ] ") = None /\
  Json.parse (lit " [1, -2.50e-3, [true, false], {}] ")
  = Some (Json.VArray [ Json.VNumber false 1 0; Json.VNumber true 250 (-5);
                        Json.VArray [Json.VBool true; Json.VBool false];
                        Json.VObject [] ]).
Proof. split; reflexivity. Qed.

Example parse_malformed :
  Json.parse (lit "{oops") = None /\ Json.parse [] = None /\
  Json.parse (lit "01") = None /\ Json.parse (lit "null null") = None.
Proof. repeat split. Qed.

(** A repeated key keeps its first place and its last value, and keys that
    are array indices come first, in ascending order. *)
Example parse_repeated_keys :
  Json.parse (lit "{" ++ dq ++ lit "a" ++ dq ++ lit ":1," ++ dq ++ lit "b" ++ dq
              ++ lit ":2," ++ dq ++ lit "a" ++ dq ++ lit ":3}")
  = Some (Json.VObject [ (lit "a", Json.VNumber false 3 0);
                         (lit "b", Json.VNumber false 2 0) ]) /\
  Json.parse (lit "{" ++ dq ++ lit "b" ++ dq ++ lit ":1," ++ dq ++ lit "10" ++ dq
              ++ lit ":2," ++ dq ++ lit "2" ++ dq ++ lit ":3," ++ dq ++ lit "01"
              ++ dq ++ lit ":4}")
  = Some (Json.VObject [ (lit "2", Json.VNumber false 3 0);
                         (lit "10", Json.VNumber false 2 0);
                         (lit "b", Json.VNumber false 1 0);
                         (lit "01", Json.VNumber false 4 0) ]).
Proof. split; reflexivity. Qed.

(** The values that parse and are falsy. *)
Example parse_falsy :
  option_map Json.truthy (Json.parse (lit "null")) = Some false /\
  option_map Json.truthy (Json.parse (lit "false")) = Some false /\
  option_map Json.truthy (Json.parse (lit "0")) = Some false /\
  option_map Json.truthy (Json.parse (lit "-0.0e7")) = Some false /\
  option_map Json.truthy (Json.parse (dq ++ dq)) = Some false.
Proof. repeat split. Qed.

Example parse_truthy :
  option_map Json.truthy (Json.parse (lit "{}")) = Some true /\
  option_map Json.truthy (Json.parse (lit "[]")) = Some true /\
  option_map Json.truthy (Json.parse (lit "0.5")) = Some true /\
  option_map Json.truthy (Json.parse (dq ++ lit "0" ++ dq)) = Some true.
Proof. repeat split. Qed.

End JsonFacts.

(** ** Library Reader *)

Module LibraryFacts.

Import Library Samples JSFacts.

(** Induction on a file system tree, with the entries of a directory. *)
Section Induction.

Variable P : fsnode -> Prop.
Hypothesis file_case : forall content, P (File content).
Hypothesis closed_case : P (Dir None).
Hypothesis dir_case :
  forall entries, Forall (fun e => P (snd e)) entries -> P (Dir (Some entries)).

Fixpoint fsnode_entries_ind (n : fsnode) : P n :=
  match n with
  | File content => file_case content
  | Dir None => closed_case
  | Dir (Some entries) =>
      dir_case
        ((fix all (es : list (str * fsnode)) : Forall (fun e => P (snd e)) es :=
            match es with
            | [] => Forall_nil _
            | (name, child) :: rest =>
                Forall_cons (name, child) (fsnode_entries_ind child) (all rest)
            end) entries)
  end.

End Induction.

Section Reader.

Variable parse : str -> option Json.value.

Lemma readDir_entries (entries : list (str * fsnode)) (rel : str) :
  readDir parse (Dir (Some entries)) rel = readEntries parse rel entries.
Proof. reflexivity. Qed.

Lemma readEntries_file (name : str) (content : option str)
    (rest : list (str * fsnode)) (rel : str) :
  readEntries parse rel ((name, File content) :: rest)
  = readEntries parse rel rest.
Proof. reflexivity. Qed.

Lemma readEntries_dir (name : str) (listing : option (list (str * fsnode)))
    (rest : list (str * fsnode)) (rel : str) :
  readEntries parse rel ((name, Dir listing) :: rest) =
  match transcriptMetadata parse listing with
  | Some metadata =>
      match readEntries parse rel rest with
      | Ok nodes =>
          Ok (mkNode name (relPath rel name) transcript None (Some metadata)
              :: nodes)
      | Err e => Err e
      end
  | None =>
      match readDir parse (Dir listing) (relPath rel name) with
      | Ok children =>
          match readEntries parse rel rest with
          | Ok nodes =>
              Ok (mkNode name (relPath rel name) folder (Some children) None
                  :: nodes)
          | Err e => Err e
          end
      | Err e => Err e
      end
  end.
Proof. reflexivity. Qed.

(** The directory is a transcript folder exactly when [metadata.json] is a
    file that can be read and parses to a truthy value. *)
Lemma transcriptMetadata_iff (listing : option (list (str * fsnode)))
    (metadata : Json.value) :
  transcriptMetadata parse listing = Some metadata <->
  exists entries content,
    listing = Some entries /\
    lookup (lit "metadata.json") entries = Some (File (Some content)) /\
    parse content = Some metadata /\
    Json.truthy metadata = true.
Proof.
  unfold transcriptMetadata, readMetadata. split.
  - destruct listing as [entries|]; [|discriminate].
    destruct (lookup (lit "metadata.json") entries) as [[[content|]|]|] eqn:L;
      try discriminate.
    destruct (parse content) as [v|] eqn:Pv; [|discriminate].
    destruct (Json.truthy v) eqn:T; [|discriminate].
    intros H. injection H as <-. exists entries, content. auto.
  - intros (entries & content & -> & -> & -> & ->). reflexivity.
Qed.

Lemma readEntries_classified (entries : list (str * fsnode)) :
  forall rel nodes,
    readEntries parse rel entries = Ok nodes ->
    Forall2 (classified parse rel) (filter is_directory entries) nodes.
Proof.
  induction entries as [|[name [content|listing]] rest IH]; intros rel nodes H.
  - injection H as <-. constructor.
  - rewrite readEntries_file in H. cbn [filter is_directory snd].
    apply IH. exact H.
  - rewrite readEntries_dir in H. cbn [filter is_directory snd].
    destruct (transcriptMetadata parse listing) as [metadata|] eqn:T.
    + destruct (readEntries parse rel rest) as [ns|e] eqn:R; [|discriminate].
      injection H as <-. constructor; [|apply IH; exact R].
      unfold classified. cbn [fst snd node_name node_path]. rewrite T.
      repeat split.
    + destruct (readDir parse (Dir listing) (relPath rel name))
        as [children|e] eqn:D; [|discriminate].
      destruct (readEntries parse rel rest) as [ns|e] eqn:R; [|discriminate].
      injection H as <-. constructor; [|apply IH; exact R].
      unfold classified. cbn [fst snd node_name node_path]. rewrite T.
      repeat split. exists children. split; [exact D|reflexivity].
Qed.

(** The read succeeds on a tree whose directories can all be listed,
    whatever the metadata files hold and however they parse. *)
Lemma readDir_listable (n : fsnode) :
  forall rel, listable n = true ->
    match n with
    | File _ => True
    | Dir _ => exists nodes, readDir parse n rel = Ok nodes
    end.
Proof.
  induction n as [content| |entries IH] using fsnode_entries_ind;
    intros rel Hl; [exact I|discriminate|].
  rewrite readDir_entries. cbn [listable] in Hl.
  induction entries as [|[name child] rest IHrest].
  - exists []. reflexivity.
  - apply andb_true_iff in Hl as [Hchild Hrest].
    inversion IH as [|? ? Hc Hr]; subst.
    destruct (IHrest Hr Hrest) as [ns Hns].
    destruct child as [content|listing].
    + rewrite readEntries_file. exists ns. exact Hns.
    + rewrite readEntries_dir, Hns.
      destruct (transcriptMetadata parse listing) as [metadata|]; [eauto|].
      destruct (Hc (relPath rel name) Hchild) as [children Hch].
      cbn [snd] in Hch. rewrite Hch. eauto.
Qed.

End Reader.

(** C4, as amended: of the entries of a directory, plain files give no
    node and each subdirectory gives one, in order; a subdirectory is a
    transcript entry if and only if its [metadata.json] is a file that can
    be read and parses to a truthy value (an object, an array, [true], a
    nonempty string, a number other than zero), and is otherwise a category
    folder whose children are read from it; on a tree whose directories can
    all be listed the read succeeds whatever the metadata files hold. *)
Theorem readDir_transcript_iff_truthy_metadata
    (parse : str -> option Json.value) :
  (forall listing metadata,
      transcriptMetadata parse listing = Some metadata <->
      exists entries content,
        listing = Some entries /\
        lookup (lit "metadata.json") entries = Some (File (Some content)) /\
        parse content = Some metadata /\
        Json.truthy metadata = true) /\
  (forall entries rel nodes,
      readDir parse (Dir (Some entries)) rel = Ok nodes ->
      Forall2 (classified parse rel) (filter is_directory entries) nodes) /\
  (forall entries rel,
      listable (Dir (Some entries)) = true ->
      exists nodes, readDir parse (Dir (Some entries)) rel = Ok nodes).
Proof.
  split; [|split].
  - apply transcriptMetadata_iff.
  - intros entries rel nodes H. apply readEntries_classified. exact H.
  - intros entries rel H. apply (readDir_listable parse _ rel H).
Qed.

Example readDir_sample :
  readDir Json.parse (Dir (Some sample_entries)) [] = Ok sample_nodes.
Proof. vm_compute. reflexivity. Qed.

Lemma readDir_sample_classified :
  Forall2 (classified Json.parse []) (filter is_directory sample_entries)
          sample_nodes.
Proof.
  apply (proj1 (proj2 (readDir_transcript_iff_truthy_metadata Json.parse))).
  vm_compute. reflexivity.
Defined.

(** C4, as stated, fails: the metadata record is present and parses, and
    the folder is read as a category folder. *)
Lemma readDir_null_metadata_is_category :
  lookup (lit "metadata.json")
         [ (lit "metadata.json", File (Some (lit "null"))) ]
  = Some (File (Some (lit "null"))) /\
  Json.parse (lit "null") = Some Json.VNull /\
  readDir Json.parse (Dir (Some null_metadata)) []
  = Ok [ mkNode (lit "talk-2024-05-01") (lit "talk-2024-05-01") folder
           (Some []) None ].
Proof. repeat split. Qed.

(** C5: when nothing is at the archive root path, the reader gives the tree
    rooted at that path with an empty list of children, and no error. *)
Theorem readLibraryStructure_missing_root
    (parse : str -> option Json.value) (fs : fsnode) (baseDir : list str) :
  resolve fs baseDir = None ->
  readLibraryStructure parse fs baseDir
  = Ok (mkNode (lit "transcripts") (path_string baseDir) folder (Some []) None).
Proof.
  intros H. unfold readLibraryStructure. rewrite H. reflexivity.
Qed.

Lemma readLibraryStructure_fresh_home :
  resolve fresh_home transcripts_dir = None /\
  readLibraryStructure Json.parse fresh_home transcripts_dir
  = Ok (mkNode (lit "transcripts") (lit "/home/ada/Documents/transcripts")
               folder (Some []) None).
Proof.
  split; [reflexivity|].
  apply (readLibraryStructure_missing_root Json.parse fresh_home transcripts_dir).
  reflexivity.
Defined.

End LibraryFacts.

(** ** Token estimate and truncation *)

Module TruncationFacts.

Import Truncation.

Local Open Scope Z_scope.

Lemma length_nonneg (s : str) : 0 <= length s.
Proof. unfold length. lia. Qed.

(** The estimate is the least number of four-character tokens that cover
    the text. *)
Lemma estimateTokens_ceiling (text : str) :
  length text <= 4 * estimateTokens text < length text + 4.
Proof.
  unfold estimateTokens, ceil_div.
  pose proof (Z.div_mod (- length text) 4 ltac:(lia)) as Hd.
  pose proof (Z.mod_pos_bound (- length text) 4 ltac:(lia)) as Hm.
  lia.
Qed.

Lemma estimateTokens_le (text : str) (maxTokens : Z) :
  estimateTokens text <= maxTokens <-> length text <= 4 * maxTokens.
Proof. pose proof (estimateTokens_ceiling text). lia. Qed.

Lemma slice_leading (text : str) (n : Z) :
  0 <= n <= length text -> slice text 0 n = leading n text.
Proof.
  intros H. unfold slice, leading.
  assert (E : (n <? 0) = false) by (apply Z.ltb_ge; lia).
  rewrite Z.ltb_irrefl, E.
  rewrite Z.min_l, Z.min_l by lia. rewrite Z.sub_0_r. reflexivity.
Qed.

Lemma slice_centered (text : str) (n : Z) :
  0 <= n <= length text ->
  slice text ((length text - n) / 2) ((length text + n) / 2) = centered n text.
Proof.
  intros H. unfold slice, centered.
  assert (Es : (length text + n) / 2 = (length text - n) / 2 + n).
  { replace (length text + n) with (length text - n + n * 2) by lia.
    apply Z.div_add. lia. }
  pose proof (Z.div_mod (length text - n) 2 ltac:(lia)) as Hd.
  pose proof (Z.mod_pos_bound (length text - n) 2 ltac:(lia)) as Hm.
  assert (E1 : ((length text - n) / 2 <? 0) = false) by (apply Z.ltb_ge; lia).
  assert (E2 : ((length text + n) / 2 <? 0) = false) by (apply Z.ltb_ge; lia).
  rewrite E1, E2. rewrite Z.min_l, Z.min_l by lia.
  f_equal. f_equal. lia.
Qed.

Lemma slice_trailing (text : str) (n : Z) :
  0 < n <= length text -> slice_from text (- n) = trailing n text.
Proof.
  intros H. unfold slice_from, slice, trailing.
  assert (E1 : (- n <? 0) = true) by (apply Z.ltb_lt; lia).
  assert (E2 : (length text <? 0) = false)
    by (apply Z.ltb_ge; apply length_nonneg).
  rewrite E1, E2. rewrite Z.max_l, Z.min_l by lia.
  unfold length in *.
  replace (Z.to_nat (Z.of_nat (List.length text) + - n))
    with (List.length text - Z.to_nat n)%nat by lia.
  apply firstn_all2. rewrite length_skipn. lia.
Qed.

Lemma length_leading (text : str) (n : Z) :
  0 <= n <= length text -> length (leading n text) = n.
Proof.
  intros H. unfold leading, length in *. rewrite length_firstn. lia.
Qed.

Lemma length_centered (text : str) (n : Z) :
  0 <= n <= length text -> length (centered n text) = n.
Proof.
  intros H. unfold centered, length in *.
  pose proof (Z.div_mod (Z.of_nat (List.length text) - n) 2 ltac:(lia)) as Hd.
  pose proof (Z.mod_pos_bound (Z.of_nat (List.length text) - n) 2 ltac:(lia)) as Hm.
  rewrite length_firstn, length_skipn. lia.
Qed.

Lemma length_trailing (text : str) (n : Z) :
  0 <= n <= length text -> length (trailing n text) = n.
Proof.
  intros H. unfold trailing, length in *. rewrite length_skipn. lia.
Qed.

Lemma length_app (a b : str) : length (a ++ b) = length a + length b.
Proof. unfold length. rewrite List.length_app. lia. Qed.

Lemma truncateTranscript_under (text : str) (maxTokens : Z) :
  estimateTokens text <= maxTokens -> truncateTranscript text maxTokens = text.
Proof.
  intros H. unfold truncateTranscript.
  apply Z.leb_le in H. rewrite H. reflexivity.
Qed.

Lemma truncateTranscript_over (text : str) (maxTokens : Z) :
  0 < maxTokens -> maxTokens < estimateTokens text ->
  truncateTranscript text maxTokens =
  leading (maxTokens * 4 / 3) text ++ middle_marker
  ++ centered (maxTokens * 4 / 3) text ++ later_marker
  ++ trailing (maxTokens * 4 / 3) text.
Proof.
  intros Hpos Hover. unfold truncateTranscript.
  assert (E : (estimateTokens text <=? maxTokens) = false)
    by (apply Z.leb_gt; exact Hover).
  rewrite E.
  assert (Hlen : 4 * maxTokens < length text).
  { pose proof (estimateTokens_le text maxTokens). lia. }
  pose proof (Z.div_mod (maxTokens * 4) 3 ltac:(lia)) as Hd.
  pose proof (Z.mod_pos_bound (maxTokens * 4) 3 ltac:(lia)) as Hm.
  rewrite slice_leading, slice_centered, slice_trailing by lia.
  reflexivity.
Qed.

Lemma markers_length : length middle_marker = 28 /\ length later_marker = 27.
Proof. split; reflexivity. Qed.

Lemma truncateTranscript_over_lengths (text : str) (maxTokens : Z) :
  0 < maxTokens -> maxTokens < estimateTokens text ->
  let chunkSize := maxTokens * 4 / 3 in
  length (leading chunkSize text) = chunkSize /\
  length (centered chunkSize text) = chunkSize /\
  length (trailing chunkSize text) = chunkSize /\
  length (truncateTranscript text maxTokens) = 3 * chunkSize + 55 /\
  maxTokens * 4 + 53 <= length (truncateTranscript text maxTokens)
    <= maxTokens * 4 + 55.
Proof.
  intros Hpos Hover chunkSize.
  assert (Hlen : 4 * maxTokens < length text).
  { pose proof (estimateTokens_le text maxTokens). lia. }
  pose proof (Z.div_mod (maxTokens * 4) 3 ltac:(lia)) as Hd.
  pose proof (Z.mod_pos_bound (maxTokens * 4) 3 ltac:(lia)) as Hm.
  assert (Hc : 0 <= chunkSize <= length text) by (unfold chunkSize; lia).
  pose proof (length_leading text Hc) as L1.
  pose proof (length_centered text Hc) as L2.
  pose proof (length_trailing text Hc) as L3.
  destruct markers_length as [M1 M2].
  assert (Htotal : length (truncateTranscript text maxTokens) = 3 * chunkSize + 55).
  { rewrite truncateTranscript_over by assumption. fold chunkSize.
    rewrite !length_app. lia. }
  repeat split; try assumption; unfold chunkSize in Htotal; lia.
Qed.

(** C6: the estimate of a text is the ceiling of its length over four.  A
    text whose estimate is at most the ceiling comes back unmodified.  A
    text over the configured ceiling, 150000 tokens, comes back as its
    leading slice, the slice centred on its midpoint and its trailing
    slice, each of [150000 * 4 / 3 = 200000] characters, joined with the
    middle and the later markers, 600055 characters in all, within 55 of
    [ceiling * 4]; and so for every ceiling of one token or more, with
    slices of [ceiling * 4 / 3] characters, rounded down, and a total
    between [ceiling * 4 + 53] and [ceiling * 4 + 55]. *)
Theorem truncateTranscript_three_slices (text : str) :
  length text <= 4 * estimateTokens text < length text + 4 /\
  (forall maxTokens,
      estimateTokens text <= maxTokens ->
      truncateTranscript text maxTokens = text) /\
  (defaultMaxTokens < estimateTokens text ->
   3 * 200000 = defaultMaxTokens * 4 /\
   truncateTranscript text defaultMaxTokens =
     leading 200000 text ++ middle_marker ++ centered 200000 text
     ++ later_marker ++ trailing 200000 text /\
   length (leading 200000 text) = 200000 /\
   length (centered 200000 text) = 200000 /\
   length (trailing 200000 text) = 200000 /\
   length (truncateTranscript text defaultMaxTokens) = 600055 /\
   length (truncateTranscript text defaultMaxTokens)
     <= defaultMaxTokens * 4 + 55) /\
  (forall maxTokens,
      0 < maxTokens -> maxTokens < estimateTokens text ->
      let chunkSize := maxTokens * 4 / 3 in
      truncateTranscript text maxTokens =
        leading chunkSize text ++ middle_marker ++ centered chunkSize text
        ++ later_marker ++ trailing chunkSize text /\
      length (leading chunkSize text) = chunkSize /\
      length (centered chunkSize text) = chunkSize /\
      length (trailing chunkSize text) = chunkSize /\
      length (truncateTranscript text maxTokens) = 3 * chunkSize + 55 /\
      maxTokens * 4 + 53 <= length (truncateTranscript text maxTokens)
        <= maxTokens * 4 + 55).
Proof.
  split; [apply estimateTokens_ceiling|].
  split; [intros maxTokens; apply truncateTranscript_under|].
  split.
  - intros Hover.
    pose proof (truncateTranscript_over text (maxTokens := defaultMaxTokens)
                  ltac:(reflexivity) Hover) as Hout.
    pose proof (truncateTranscript_over_lengths text
                  (maxTokens := defaultMaxTokens) ltac:(reflexivity) Hover)
      as (L1 & L2 & L3 & Lt & _).
    change (defaultMaxTokens * 4 / 3) with 200000 in Hout, L1, L2, L3, Lt.
    change (3 * 200000 + 55) with 600055 in Lt.
    repeat split; try assumption. rewrite Lt. reflexivity.
  - intros maxTokens Hpos Hover chunkSize. split.
    + apply truncateTranscript_over; assumption.
    + apply truncateTranscript_over_lengths; assumption.
Qed.

(** Thirteen characters against a ceiling of two tokens. *)
Lemma truncateTranscript_alphabet :
  truncateTranscript (lit "abcdefghijklm") 2
  = lit "ab" ++ middle_marker ++ lit "fg" ++ later_marker ++ lit "lm" /\
  length (truncateTranscript (lit "abcdefghijklm") 2) = 61.
Proof.
  destruct (truncateTranscript_three_slices (lit "abcdefghijklm"))
    as (_ & _ & _ & H).
  destruct (H 2 ltac:(lia) ltac:(vm_compute; reflexivity))
    as (Hout & _ & _ & _ & Hlen & _).
  split; [exact Hout | exact Hlen].
Defined.

(** A ceiling of zero tokens, which no call in the program passes: the
    chunk size is zero and [slice(-0)] is the whole text. *)
Lemma truncateTranscript_zero_ceiling :
  estimateTokens (lit "a") = 1 /\
  0 * 4 / 3 = 0 /\
  truncateTranscript (lit "a") 0 = middle_marker ++ later_marker ++ lit "a" /\
  length (truncateTranscript (lit "a") 0) = 56.
Proof. repeat split. Qed.

(** With the default ceiling each slice has 200000 characters. *)
Lemma truncateTranscript_default (text : str) :
  defaultMaxTokens < estimateTokens text ->
  truncateTranscript text defaultMaxTokens =
    leading 200000 text ++ middle_marker ++ centered 200000 text
    ++ later_marker ++ trailing 200000 text /\
  length (truncateTranscript text defaultMaxTokens) = 600055.
Proof.
  intros H. split.
  - apply (truncateTranscript_over text (maxTokens := defaultMaxTokens));
      [reflexivity | exact H].
  - apply (truncateTranscript_over_lengths text (maxTokens := defaultMaxTokens));
      [reflexivity | exact H].
Qed.

End TruncationFacts.

(** ** Tree Summarizer *)

Module SummarizerFacts.

Import Summarizer Samples JSFacts.

(** Induction on a library tree, with the children of a node. *)
Section Induction.

Variable M : Type.
Variable P : FolderNode M -> Prop.
Hypothesis node_case :
  forall name path type children metadata,
    match children with Some cs => Forall P cs | None => True end ->
    P (mkNode name path type children metadata).

Fixpoint node_children_ind (n : FolderNode M) : P n :=
  match n with
  | mkNode name path type children metadata =>
      node_case name path type children metadata
        (match children
           return match children with Some cs => Forall P cs | None => True end
         with
         | Some cs =>
             (fix all (l : list (FolderNode M)) : Forall P l :=
                match l with
                | [] => Forall_nil _
                | c :: rest => Forall_cons c (node_children_ind c) (all rest)
                end) cs
         | None => I
         end)
  end.

End Induction.

Lemma oneLine_app (a b : str) : oneLine (a ++ b) = oneLine a && oneLine b.
Proof. apply forallb_app. Qed.

Lemma split_oneLine (s : str) : oneLine s = true -> split 10%N s = [s].
Proof.
  induction s as [|c s IH]; simpl; [reflexivity|].
  intros H. apply andb_true_iff in H as [Hc Hs].
  apply negb_true_iff in Hc. rewrite Hc, (IH Hs). reflexivity.
Qed.

Lemma split_line_then (l rest : str) :
  oneLine l = true -> split 10%N (l ++ 10%N :: rest) = l :: split 10%N rest.
Proof.
  induction l as [|c l IH]; simpl; [reflexivity|].
  intros H. apply andb_true_iff in H as [Hc Hl].
  apply negb_true_iff in Hc. rewrite Hc, (IH Hl). reflexivity.
Qed.

(** Splitting the joined lines gives the lines back. *)
Lemma split_join (l : str) (ls : list str) :
  forallb oneLine (l :: ls) = true -> split 10%N (join nl (l :: ls)) = l :: ls.
Proof.
  revert l. induction ls as [|l' ls IH]; intros l H.
  - simpl in *. apply split_oneLine.
    apply andb_true_iff in H as [H _]. exact H.
  - cbn [forallb] in H. apply andb_true_iff in H as [Hl Hls].
    change (join nl (l :: l' :: ls)) with (l ++ 10%N :: join nl (l' :: ls)).
    rewrite split_line_then by exact Hl. f_equal. apply IH. exact Hls.
Qed.

Lemma nonEmptyLines_join (ls : list str) :
  forallb oneLine ls = true -> forallb JS.truthy ls = true ->
  nonEmptyLines (join nl ls) = ls.
Proof.
  intros H1 H2. unfold nonEmptyLines. destruct ls as [|l ls]; [reflexivity|].
  rewrite split_join by exact H1.
  clear H1. induction (l :: ls) as [|x xs IH]; [reflexivity|].
  cbn [forallb filter] in *. apply andb_true_iff in H2 as [Hx Hxs].
  rewrite Hx, (IH Hxs). reflexivity.
Qed.

Lemma oneLine_indentation (depth : nat) : oneLine (indentation depth) = true.
Proof.
  induction depth as [|d IH]; [reflexivity|].
  simpl. rewrite oneLine_app, IH. reflexivity.
Qed.

Lemma truthy_app_r (a b : str) : JS.truthy b = true -> JS.truthy (a ++ b) = true.
Proof. destruct a; simpl; auto. Qed.

Lemma forallb_flat_map (A B : Type) (p : B -> bool) (f : A -> list B) (l : list A) :
  Forall (fun a => forallb p (f a) = true) l ->
  forallb p (flat_map f l) = true.
Proof.
  induction 1 as [|a l Ha Hl IH]; [reflexivity|].
  simpl. rewrite forallb_app, Ha, IH. reflexivity.
Qed.

(** The lines of a tree without line feeds are whole, nonempty lines. *)
Lemma renderLines_lines (node : FolderNode TranscriptMetadata) :
  forall depth,
    oneLineTree node = true ->
    forallb oneLine (renderLines depth node) = true /\
    forallb JS.truthy (renderLines depth node) = true.
Proof.
  induction node as [name path type children metadata IH]
    using node_children_ind.
  intros depth H. cbn [oneLineTree] in H.
  apply andb_true_iff in H as [H Hcs]. apply andb_true_iff in H as [Hname Hmd].
  pose proof (oneLine_indentation depth) as Hind.
  destruct type.
  - cbn [renderLines].
    assert (Hkids :
      forallb oneLine
        match children with
        | Some cs => flat_map (renderLines (S depth)) cs | None => [] end = true
      /\ forallb JS.truthy
        match children with
        | Some cs => flat_map (renderLines (S depth)) cs | None => [] end = true).
    { destruct children as [cs|]; [|split; reflexivity].
      split; apply forallb_flat_map;
        rewrite forallb_forall in Hcs; rewrite Forall_forall in IH |- *;
        intros c Hc; apply (IH c Hc (S depth) (Hcs c Hc)). }
    destruct Hkids as [K1 K2]. rewrite !forallb_app, K1, K2.
    unfold folderLine. destruct (JS.truthy (indentation depth)) eqn:T.
    + cbn [forallb]. rewrite !oneLine_app, Hind, Hname.
      split; [reflexivity|]. rewrite truthy_app_r; reflexivity.
    + split; reflexivity.
  - cbn [renderLines]. destruct metadata as [md|]; [|split; reflexivity].
    apply andb_true_iff in Hmd as [Hmd Hsub].
    apply andb_true_iff in Hmd as [Hsum Hprim].
    unfold transcriptLines. cbn [forallb].
    rewrite !oneLine_app, Hind, Hname, Hsum, Hprim, Hsub.
    split; [reflexivity|].
    rewrite !truthy_app_r; reflexivity.
Qed.

(** On a tree without line feeds the source renders the lines of the
    specification, each node at the indent of its depth. *)
Lemma folderTreeToString_renderLines (node : FolderNode TranscriptMetadata) :
  forall depth,
    oneLineTree node = true ->
    folderTreeToString node (indentation depth)
    = join nl (renderLines depth node).
Proof.
  induction node as [name path type children metadata IH]
    using node_children_ind.
  intros depth H. cbn [folderTreeToString renderLines].
  destruct type; [|reflexivity].
  f_equal. f_equal. destruct children as [cs|]; [|reflexivity].
  cbn [oneLineTree] in H. apply andb_true_iff in H as [_ Hcs].
  rewrite forallb_forall in Hcs. rewrite Forall_forall in IH.
  induction cs as [|c cs IHcs]; [reflexivity|].
  cbn [flat_map]. f_equal.
  - change (indentation depth ++ lit "  ") with (indentation (S depth)).
    rewrite (IH c (or_introl eq_refl) (S depth) (Hcs c (or_introl eq_refl))).
    destruct (renderLines_lines c (S depth) (Hcs c (or_introl eq_refl))).
    apply nonEmptyLines_join; assumption.
  - apply IHcs.
    + intros x Hx. apply IH. right. exact Hx.
    + intros x Hx. apply Hcs. right. exact Hx.
Qed.

(** C7: the root, rendered with the empty indent, has no line of its own,
    only the lines of its children; a tree without children renders as the
    empty string; a transcript entry renders as its marker line, the line
    of its stored summary and the line of its theme path; a category
    folder below the root renders as its marker line and then its children
    at the indent two spaces deeper; and on a tree whose names, summaries
    and themes hold no line feed the text is the lines of the
    specification, each node at two spaces per level of depth. *)
Theorem folderTreeToString_renders_tree :
  (forall name path children metadata,
      folderTreeToString (mkNode name path folder children metadata) []
      = join nl
          match children with
          | Some cs =>
              flat_map
                (fun c => nonEmptyLines (folderTreeToString c (lit "  "))) cs
          | None => []
          end) /\
  (forall name path metadata,
      folderTreeToString (mkNode name path folder (Some []) metadata) [] = [] /\
      folderTreeToString (mkNode name path folder None metadata) [] = []) /\
  (forall indent name path children md,
      folderTreeToString (mkNode name path transcript children (Some md)) indent
      = indent ++ page_icon ++ lit " " ++ name ++ nl
        ++ indent ++ lit "   Summary: " ++ summary (theme md) ++ nl
        ++ indent ++ lit "   Theme: " ++ primaryTheme (theme md) ++ lit " > "
        ++ subTheme (theme md)) /\
  (forall indent name path children metadata,
      indent <> [] ->
      folderTreeToString (mkNode name path folder children metadata) indent
      = join nl
          ((indent ++ folder_icon ++ lit " " ++ name ++ lit "/")
           :: match children with
              | Some cs =>
                  flat_map
                    (fun c =>
                       nonEmptyLines (folderTreeToString c (indent ++ lit "  ")))
                    cs
              | None => []
              end)) /\
  (forall node depth,
      oneLineTree node = true ->
      folderTreeToString node (indentation depth)
      = join nl (renderLines depth node)).
Proof.
  split; [reflexivity|]. split; [split; reflexivity|]. split.
  - intros indent name path children md. cbn [folderTreeToString].
    unfold transcriptLines. cbn [join]. rewrite <- !app_assoc. reflexivity.
  - split.
    + intros indent name path children metadata Hi.
      cbn [folderTreeToString]. unfold folderLine.
      destruct indent; [congruence|reflexivity].
    + intros node depth. apply folderTreeToString_renderLines.
Qed.

Lemma folderTreeToString_one_category :
  folderTreeToString (one_category (lit "/home/ada/Documents/transcripts")) []
  = join nl
      [ lit "  " ++ folder_icon ++ lit " ai-podcasts/";
        lit "    " ++ page_icon ++ lit " safety-talk-2024-05-01";
        lit "       Summary: Discussion of AI safety";
        lit "       Theme: ai-podcasts > safety-talk" ].
Proof.
  exact (proj2 (proj2 (proj2 (proj2 folderTreeToString_renders_tree)))
           (one_category (lit "/home/ada/Documents/transcripts")) 0%nat
           eq_refl).
Defined.

(** A summary of two paragraphs loses its blank line under a folder: the
    lines of a child are split and the empty ones dropped. *)
Example folderTreeToString_blank_line_dropped :
  let entry :=
    mkNode (lit "t") (lit "c/t") transcript None
      (Some {| sourceUrl := []; title := []; date := [];
               theme := {| primaryTheme := lit "c"; subTheme := lit "t";
                           folderName := lit "c"; confidence := low;
                           summary := lit "one" ++ nl ++ nl ++ lit "two" |};
               language := None; language_confidence := None;
               wordsDetected := None |}) in
  folderTreeToString (mkNode (lit "transcripts") [] folder (Some [entry]) None) []
  = join nl [ lit "  " ++ page_icon ++ lit " t";
              lit "     Summary: one";
              lit "two";
              lit "     Theme: c > t" ].
Proof. reflexivity. Qed.

End SummarizerFacts.

(** ** Classifier *)

Module ClassifierFacts.

Import Classifier Summarizer Truncation Samples JSFacts.

(** The two templates differ at their ninth character, whatever is put in
    them. *)
Lemma prompts_differ (u t f p u' t' p' : str) :
  incrementalPrompt u t f p <> bootstrapPrompt u' t' p'.
Proof.
  intros H. apply (f_equal (firstn 9)) in H.
  unfold incrementalPrompt, bootstrapPrompt in H.
  cbn in H. discriminate H.
Qed.

Lemma hasExistingTranscripts_children (M : Type) (lib : FolderNode M) :
  hasExistingTranscripts lib = true <->
  exists c cs, node_children lib = Some (c :: cs).
Proof.
  unfold hasExistingTranscripts.
  destruct (node_children lib) as [[|c cs]|]; split;
    try discriminate; try (intros (c' & cs' & H); discriminate H).
  - intros _. eauto.
  - reflexivity.
Qed.

Lemma hasTranscriptEntry_children (M : Type) (lib : FolderNode M) :
  node_type lib = folder -> hasTranscriptEntry lib = true ->
  hasExistingTranscripts lib = true.
Proof.
  destruct lib as [name path type children metadata]. cbn [node_type].
  intros ->. unfold hasExistingTranscripts. cbn [hasTranscriptEntry node_children].
  destruct children as [[|c cs]|]; try discriminate. reflexivity.
Qed.

Section Prompt.

Variables transcript videoUrl videoTitle : str.
Variable lib : FolderNode TranscriptMetadata.

Let processed := truncateTranscript transcript defaultMaxTokens.

Lemma prompt_bootstrap_iff :
  prompt transcript videoUrl videoTitle lib
  = bootstrapPrompt videoUrl videoTitle processed <->
  hasExistingTranscripts lib = false.
Proof.
  unfold prompt. fold processed.
  destruct (hasExistingTranscripts lib); split; try reflexivity.
  - intros H. apply prompts_differ in H. contradiction.
  - discriminate.
Qed.

Lemma prompt_incremental_iff :
  prompt transcript videoUrl videoTitle lib
  = incrementalPrompt videoUrl videoTitle (folderTreeToString lib []) processed
  <-> hasExistingTranscripts lib = true.
Proof.
  unfold prompt. fold processed.
  destruct (hasExistingTranscripts lib); split; try reflexivity.
  - intros H. symmetry in H. apply prompts_differ in H. contradiction.
  - discriminate.
Qed.

End Prompt.

(** C8, as amended: the prompt is the bootstrap (first transcript) variant
    if and only if the root of the library tree has no children, and the
    incremental variant if and only if it has one, category folder or
    transcript entry alike; so a library that holds a transcript entry gets
    the incremental variant. *)
Theorem prompt_bootstrap_iff_root_has_no_children
    (transcript videoUrl videoTitle : str)
    (lib : FolderNode TranscriptMetadata) :
  let processed := truncateTranscript transcript defaultMaxTokens in
  (prompt transcript videoUrl videoTitle lib
   = bootstrapPrompt videoUrl videoTitle processed <->
   node_children lib = None \/ node_children lib = Some []) /\
  (prompt transcript videoUrl videoTitle lib
   = incrementalPrompt videoUrl videoTitle (folderTreeToString lib []) processed
   <-> exists c cs, node_children lib = Some (c :: cs)) /\
  (node_type lib = folder -> hasTranscriptEntry lib = true ->
   prompt transcript videoUrl videoTitle lib
   = incrementalPrompt videoUrl videoTitle (folderTreeToString lib []) processed).
Proof.
  intros processed. subst processed. split; [|split].
  - rewrite prompt_bootstrap_iff. unfold hasExistingTranscripts.
    destruct (node_children lib) as [[|c cs]|]; split; auto;
      try discriminate; intros [H|H]; discriminate H.
  - rewrite prompt_incremental_iff. apply hasExistingTranscripts_children.
  - intros Hf Ht. apply prompt_incremental_iff.
    apply hasTranscriptEntry_children; assumption.
Qed.

Lemma prompt_empty_library :
  prompt (lit "A: Hi") (lit "https://example.org/watch") (lit "talk")
    empty_library
  = bootstrapPrompt (lit "https://example.org/watch") (lit "talk") (lit "A: Hi").
Proof.
  apply (proj2 (proj1 (prompt_bootstrap_iff_root_has_no_children
                         (lit "A: Hi") (lit "https://example.org/watch")
                         (lit "talk") empty_library))).
  right. reflexivity.
Defined.

(** C8, as stated, fails: no transcript entry exists and the prompt is the
    incremental one. *)
Lemma prompt_empty_category_is_incremental :
  hasTranscriptEntry empty_category = false /\
  prompt (lit "A: Hi") (lit "https://example.org/watch") (lit "talk")
    empty_category
  = incrementalPrompt (lit "https://example.org/watch") (lit "talk")
      (lit "  " ++ folder_icon ++ lit " drafts/") (lit "A: Hi").
Proof. split; reflexivity. Qed.

(** The reader gives such a library for an archive with one empty
    folder: the root has a child and the tree holds no transcript entry. *)
Example readLibraryStructure_empty_category :
  let fs :=
    Library.Dir
      (Some [ (lit "transcripts",
               Library.Dir (Some [ (lit "drafts", Library.Dir (Some [])) ])) ]) in
  exists lib,
    Library.readLibraryStructure Json.parse fs [lit "transcripts"] = Ok lib /\
    hasExistingTranscripts lib = true /\
    hasTranscriptEntry lib = false.
Proof. eexists. repeat split. Qed.

End ClassifierFacts.

(** ** Pipeline Orchestrator *)

Module PipelineFacts.

Import Pipeline Samples JSFacts.

(** The four files have four names. *)
Lemma fileName_same (a b : Artifact) :
  JS.eqb (fileName a) (fileName b) = same a b.
Proof. destruct a, b; vm_compute; reflexivity. Qed.

Lemma holds_same (d : Disk) (a : Artifact) :
  holds d a = existsb (same a) (files d).
Proof.
  unfold holds. induction (files d) as [|b l IH]; [reflexivity|].
  cbn [existsb]. rewrite fileName_same, IH. reflexivity.
Qed.

(** After the writes the folder holds the files whose write succeeded. *)
Lemma holds_filter (ok : Artifact -> bool) (dir : bool) (a : Artifact) :
  holds {| outputDir := dir; files := filter ok artifacts |} a = ok a.
Proof.
  rewrite holds_same. cbn [files]. unfold artifacts. cbn [filter].
  destruct (ok RawText) eqn:E1, (ok RawJson) eqn:E2,
           (ok AssembledText) eqn:E3, (ok Metadata) eqn:E4;
    destruct a; cbn; congruence.
Qed.

(** A run that stops before the writes leaves no file; one that reaches
    them leaves the folder with the files whose write succeeded, and ends
    well when all four did and the temporary audio could be removed. *)
Lemma run_cases (w : World) :
  run w =
  if reachesWrites w
  then (forallb (write_ok w) artifacts
        && (if needsCleanup w then unlink_ok w else true),
        {| outputDir := true; files := filter (write_ok w) artifacts |})
  else (false, emptyDisk).
Proof.
  unfold run, main, reachesWrites, bind, await, mkdir, writeAll, ret.
  destruct (acquire_ok w), (transcribe_ok w), (readLibrary_ok w),
           (classify_ok w), (mkdir_ok w); cbn; try reflexivity.
  destruct (write_ok w RawText), (write_ok w RawJson),
           (write_ok w AssembledText), (write_ok w Metadata);
    cbn; try reflexivity;
    destruct (needsCleanup w); try reflexivity;
    destruct (unlink_ok w); reflexivity.
Qed.

(** C9, as amended: a run that ends well has produced all four artifacts;
    a run that fails before the writes produces none of them; a run that
    reaches the writes leaves the destination folder with exactly the
    artifacts whose write succeeded, since the four writes are independent
    and nothing is undone when one of them fails. *)
Theorem run_leaves_written_artifacts (w : World) :
  (fst (run w) = true -> holdsAll (snd (run w)) = true) /\
  (reachesWrites w = false ->
   fst (run w) = false /\ files (snd (run w)) = [] /\
   holdsNone (snd (run w)) = true) /\
  (reachesWrites w = true ->
   outputDir (snd (run w)) = true /\
   forall a, holds (snd (run w)) a = write_ok w a).
Proof.
  rewrite run_cases. destruct (reachesWrites w); cbn [fst snd].
  - split; [|split].
    + intros H. apply andb_true_iff in H as [H _].
      unfold holdsAll. apply forallb_forall. intros a Ha.
      rewrite holds_filter. rewrite forallb_forall in H. apply H. exact Ha.
    + discriminate.
    + intros _. split; [reflexivity|]. intros a. apply holds_filter.
  - split; [discriminate|]. split; [|discriminate].
    intros _. repeat split.
Qed.

Lemma run_fair_weather :
  fst (run fair_weather) = true /\ holdsAll (snd (run fair_weather)) = true.
Proof.
  split; [reflexivity|].
  apply (proj1 (run_leaves_written_artifacts fair_weather)). reflexivity.
Defined.

(** C9, as stated, fails: the run fails and leaves three of the four
    artifacts, [metadata.json] among them, neither all nor none. *)
Lemma run_raw_text_write_fails :
  run raw_text_write_fails
  = (false, {| outputDir := true;
               files := [RawJson; AssembledText; Metadata] |}) /\
  holds (snd (run raw_text_write_fails)) Metadata = true /\
  holdsAll (snd (run raw_text_write_fails)) = false /\
  holdsNone (snd (run raw_text_write_fails)) = false.
Proof. repeat split. Qed.

End PipelineFacts.

(** * Further properties *)

(** ** The replacement before punctuation *)

Module CollapseFacts.

Import JSFacts.

Lemma match_tail_collapse (s : str) :
  match_space_punct_tail s = None ->
  match_space_punct_tail (collapse_space_punct s) = None.
Proof.
  induction s as [|c rest IH]; intros H; [reflexivity|].
  cbn [collapse_space_punct match_space_punct]. cbn [match_space_punct_tail] in H.
  destruct (is_space c) eqn:Hc.
  - rewrite H. cbn [match_space_punct_tail]. rewrite Hc. apply IH. exact H.
  - cbn [match_space_punct_tail]. rewrite Hc.
    destruct (is_punct c); [discriminate|reflexivity].
Qed.

Lemma collapse_no_match (s : str) :
  forall before after,
    collapse_space_punct s = before ++ after ->
    match_space_punct after = None.
Proof.
  induction s as [|c rest IH]; intros before after H.
  - destruct before, after; try discriminate. reflexivity.
  - cbn [collapse_space_punct] in H.
    destruct (match_space_punct (c :: rest)) as [m|] eqn:M.
    + apply (IH before after H).
    + destruct before as [|b before].
      * cbn [app] in H. subst after. cbn [match_space_punct] in M |- *.
        destruct (is_space c); [|reflexivity].
        apply match_tail_collapse. exact M.
      * injection H as _ H. apply (IH before after H).
Qed.

Lemma collapse_fixed (s : str) :
  (forall before after, s = before ++ after -> match_space_punct after = None) ->
  collapse_space_punct s = s.
Proof.
  induction s as [|c rest IH]; intros H; [reflexivity|].
  cbn [collapse_space_punct]. rewrite (H [] (c :: rest) eq_refl).
  f_equal. apply IH. intros before after E.
  apply (H (c :: before) after). rewrite E. reflexivity.
Qed.

(** X1: In a line of the transcript no white space is left in front of a
    punctuation character: the regular expression matches nowhere in what
    the replacement gives, and replacing again changes nothing. *)
Theorem collapse_space_punct_leaves_no_match (s : str) :
  (forall before after,
      collapse_space_punct s = before ++ after ->
      match_space_punct after = None) /\
  collapse_space_punct (collapse_space_punct s) = collapse_space_punct s.
Proof.
  split; [apply collapse_no_match|].
  apply collapse_fixed. apply collapse_no_match.
Qed.

(** X2: The replacement removes white space and nothing else: the other
    characters stay, in their order, and the text never grows. *)
Theorem collapse_space_punct_removes_spaces_only (s : str) :
  filter (fun c => negb (is_space c)) (collapse_space_punct s)
  = filter (fun c => negb (is_space c)) s /\
  (List.length (collapse_space_punct s) <= List.length s)%nat /\
  (forallb (fun c => negb (is_punct c)) s = true -> collapse_space_punct s = s).
Proof.
  split; [|split].
  - induction s as [|c rest IH]; [reflexivity|].
    cbn [collapse_space_punct].
    destruct (match_space_punct (c :: rest)) as [m|] eqn:M.
    + cbn [match_space_punct] in M. cbn [filter].
      destruct (is_space c); [exact IH|discriminate].
    + cbn [filter]. rewrite IH. reflexivity.
  - induction s as [|c rest IH]; [reflexivity|].
    cbn [collapse_space_punct].
    destruct (match_space_punct (c :: rest)); cbn [List.length]; lia.
  - intros H. apply collapse_fixed. intros before after ->.
    rewrite forallb_app in H. apply andb_true_iff in H as [_ H].
    destruct after as [|c rest]; [reflexivity|].
    cbn [match_space_punct]. destruct (is_space c); [|reflexivity].
    cbn [forallb] in H. apply andb_true_iff in H as [_ H].
    clear c. induction rest as [|x rest IH]; [reflexivity|].
    cbn [forallb] in H. apply andb_true_iff in H as [Hx H].
    cbn [match_space_punct_tail]. destruct (is_space x); [apply IH; exact H|].
    apply negb_true_iff in Hx. rewrite Hx. reflexivity.
Qed.

End CollapseFacts.

(** ** More on the Transcript Assembler *)

Module AssemblerMore.

Import Assembler Normalizer Tokens JSFacts AssemblerFacts.

Lemma runs_one_run (w : Word) (rest : list Word) :
  forallb (fun x => eqb (speaker_id x) (speaker_id w)) rest = true ->
  runs (w :: rest) = [w :: rest].
Proof.
  revert w. induction rest as [|x rest IH]; intros w H; [reflexivity|].
  cbn [forallb] in H. apply andb_true_iff in H as [Hx Hrest].
  apply eqb_eq in Hx.
  change (runs (w :: x :: rest)) with
    (match runs (x :: rest) with
     | (w' :: r) :: rs =>
         if eqb (speaker_id w) (speaker_id w')
         then (w :: w' :: r) :: rs else [w] :: (w' :: r) :: rs
     | _ => [[w]]
     end).
  rewrite IH by (rewrite Hx; exact Hrest).
  rewrite Hx, eqb_refl. reflexivity.
Qed.

Lemma has_text_filter (r : list Word) :
  has_text r = false <-> filter not_spacing r = [].
Proof.
  unfold has_text. induction r as [|w r IH]; cbn [existsb filter].
  - split; reflexivity.
  - destruct (not_spacing w); cbn [orb]; [split; discriminate|exact IH].
Qed.

Lemma has_text_length (r : list Word) :
  has_text r = true -> (1 <= List.length (filter not_spacing r))%nat.
Proof.
  intros H. destruct (filter not_spacing r) eqn:E; [|cbn; lia].
  apply has_text_filter in E. congruence.
Qed.

Lemma line_of_nonempty (speaker : str) (sentence : list str) :
  line_of speaker sentence <> [].
Proof.
  unfold line_of. intros H. apply app_eq_nil in H as [_ H]. discriminate H.
Qed.

Lemma join_nonempty (l : str) (ls : list str) : l <> [] -> join nl (l :: ls) <> [].
Proof.
  intros Hl H. destruct ls as [|l' ls]; cbn [join] in H; [contradiction|].
  apply app_eq_nil in H as [H _]. contradiction.
Qed.

Lemma one_speaker_line (w : Word) (rest : list Word) :
  forallb (fun x => eqb (speaker_id x) (speaker_id w)) rest = true ->
  has_text (w :: rest) = true ->
  transcriptLines (w :: rest) = [run_line (w :: rest)] /\
  wordsToTranscript (w :: rest)
  = speaker_id w ++ lit ": "
    ++ collapse_space_punct
         (join (lit " ") (map text (filter not_spacing (w :: rest)))).
Proof.
  intros Hs Ht.
  assert (E : transcriptLines (w :: rest) = [run_line (w :: rest)]).
  { rewrite transcriptLines_runs, runs_one_run by exact Hs.
    cbn [filter]. rewrite Ht. reflexivity. }
  split; [exact E|].
  unfold wordsToTranscript. rewrite E. reflexivity.
Qed.

(** X3: A sequence of one speaker, with a token that is not spacing, gives
    exactly one line: the speaker id, a colon and a space, and the texts of
    the word and punctuation tokens joined and collapsed. *)
Theorem wordsToTranscript_one_speaker (w : Word) (rest : list Word) :
  forallb (fun x => eqb (speaker_id x) (speaker_id w)) rest = true ->
  has_text (w :: rest) = true ->
  transcriptLines (w :: rest) = [run_line (w :: rest)] /\
  wordsToTranscript (w :: rest)
  = speaker_id w ++ lit ": "
    ++ collapse_space_punct
         (join (lit " ") (map text (filter not_spacing (w :: rest)))).
Proof. apply one_speaker_line. Qed.

Lemma wordsToTranscript_one_speaker_hello :
  wordsToTranscript
    [ mkWord (lit "Hello") 0%float 1%float (lit "word") (lit "A");
      mkWord (lit " ") 1%float 1%float (lit "spacing") (lit "A");
      mkWord (lit "you") 1%float 2%float (lit "word") (lit "A");
      mkWord (lit "!") 2%float 2%float (lit "punctuation") (lit "A") ]
  = lit "A: Hello you!".
Proof.
  apply (proj2 (wordsToTranscript_one_speaker
                  (mkWord (lit "Hello") 0%float 1%float (lit "word") (lit "A"))
                  [ mkWord (lit " ") 1%float 1%float (lit "spacing") (lit "A");
                    mkWord (lit "you") 1%float 2%float (lit "word") (lit "A");
                    mkWord (lit "!") 2%float 2%float (lit "punctuation") (lit "A") ]
                  eq_refl eq_refl)).
Defined.

Lemma filter_has_text_nil (rs : list (list Word)) :
  filter has_text rs = [] <-> filter not_spacing (List.concat rs) = [].
Proof.
  induction rs as [|r rs IH]; cbn [filter List.concat]; [split; reflexivity|].
  rewrite filter_app. destruct (has_text r) eqn:Hr.
  - split; [discriminate|]. intros H. apply app_eq_nil in H as [H _].
    apply has_text_filter in H. congruence.
  - apply has_text_filter in Hr. rewrite Hr. exact IH.
Qed.

(** X4: The transcript is the empty string exactly when the sequence holds no
    token other than spacing tokens. *)
Theorem wordsToTranscript_empty_iff (ws : list Word) :
  wordsToTranscript ws = [] <-> filter not_spacing ws = [].
Proof.
  rewrite <- (runs_concat ws) at 2. rewrite <- filter_has_text_nil.
  assert (E : wordsToTranscript ws = join nl (transcriptLines ws))
    by (destruct ws; reflexivity).
  rewrite E, transcriptLines_runs.
  destruct (filter has_text (runs ws)) as [|r rs]; [split; reflexivity|].
  split; [|discriminate]. intros H. exfalso.
  revert H. cbn [map]. apply join_nonempty. apply line_of_nonempty.
Qed.

(** X5: There are no more lines than tokens other than spacing, and no more
    than runs. *)
Theorem transcriptLines_at_most_tokens (ws : list Word) :
  (List.length (transcriptLines ws) <= List.length (filter not_spacing ws))%nat /\
  (List.length (transcriptLines ws) <= List.length (runs ws))%nat.
Proof.
  rewrite transcriptLines_runs, length_map. split.
  - rewrite <- (runs_concat ws) at 2.
    induction (runs ws) as [|r rs IH]; [reflexivity|].
    cbn [filter List.concat]. rewrite filter_app, length_app.
    destruct (has_text r) eqn:Hr; [|lia].
    apply has_text_length in Hr. cbn [List.length]. lia.
  - apply filter_length_le.
Qed.

Lemma runs_app (a : list Word) (x w : Word) (b : list Word) :
  speaker_id x <> speaker_id w ->
  runs ((a ++ [x]) ++ w :: b) = runs (a ++ [x]) ++ runs (w :: b).
Proof.
  intros Hd. induction a as [|y a IH].
  - destruct (runs_cons w b) as (r & rs & E).
    change (runs (([] ++ [x]) ++ w :: b)) with
      (match runs (w :: b) with
       | (w' :: r) :: rs =>
           if eqb (speaker_id x) (speaker_id w')
           then (x :: w' :: r) :: rs else [x] :: (w' :: r) :: rs
       | _ => [[x]]
       end).
    rewrite E. apply eqb_neq in Hd. rewrite Hd. reflexivity.
  - change (runs (((y :: a) ++ [x]) ++ w :: b)) with
      (match runs ((a ++ [x]) ++ w :: b) with
       | (w' :: r) :: rs =>
           if eqb (speaker_id y) (speaker_id w')
           then (y :: w' :: r) :: rs else [y] :: (w' :: r) :: rs
       | _ => [[y]]
       end).
    change (runs ((y :: a) ++ [x])) with
      (match runs (a ++ [x]) with
       | (w' :: r) :: rs =>
           if eqb (speaker_id y) (speaker_id w')
           then (y :: w' :: r) :: rs else [y] :: (w' :: r) :: rs
       | _ => [[y]]
       end).
    rewrite IH.
    assert (exists z r rs, runs (a ++ [x]) = (z :: r) :: rs) as (z & r & rs & E).
    { destruct a as [|z a]; [exists x, [], []; reflexivity|].
      destruct (runs_cons z (a ++ [x])) as (r & rs & E). eauto. }
    rewrite E. cbn [app].
    destruct (eqb (speaker_id y) (speaker_id z)); reflexivity.
Qed.

(** X6: Where the speaker changes the transcript can be cut: the lines of two
    sequences put together are the lines of the first and then the lines of
    the second, when the first ends with another speaker than the second
    starts with. *)
Theorem transcriptLines_app (a : list Word) (x w : Word) (b : list Word) :
  speaker_id x <> speaker_id w ->
  transcriptLines ((a ++ [x]) ++ w :: b)
  = transcriptLines (a ++ [x]) ++ transcriptLines (w :: b).
Proof.
  intros Hd. rewrite !transcriptLines_runs, runs_app by exact Hd.
  rewrite filter_app, map_app. reflexivity.
Qed.

Lemma transcriptLines_app_hello :
  transcriptLines
    (([ mkWord (lit "Hello") 0%float 1%float (lit "word") (lit "A") ]
      ++ [ mkWord (lit ".") 1%float 1%float (lit "punctuation") (lit "A") ])
     ++ mkWord (lit "Hi") 2%float 3%float (lit "word") (lit "B") :: [])
  = [lit "A: Hello."; lit "B: Hi"].
Proof.
  rewrite (transcriptLines_app
             [ mkWord (lit "Hello") 0%float 1%float (lit "word") (lit "A") ]
             (mkWord (lit ".") 1%float 1%float (lit "punctuation") (lit "A"))
             (mkWord (lit "Hi") 2%float 3%float (lit "word") (lit "B")) []).
  - reflexivity.
  - discriminate.
Defined.

Lemma normalize_speaker (rs : list WordResponse) :
  forallb noSpeaker rs = true ->
  forallb (fun x => eqb (speaker_id x) (lit "unknown")) (normalize rs) = true.
Proof.
  induction rs as [|r rs IH]; intros H; [reflexivity|].
  cbn [forallb] in H. apply andb_true_iff in H as [Hr Hrs].
  cbn [normalize map forallb]. fold (normalize rs). rewrite (IH Hrs), andb_true_r.
  unfold noSpeaker in Hr. cbn [normalizeWord speaker_id].
  destruct (r_speaker_id r) as [[|c s]|]; try discriminate; reflexivity.
Qed.

(** X7: Without diarization the transcript is one line: when no record has a
    speaker id and some token is not spacing, the normalized tokens
    assemble into the single line that starts with ["unknown: "]. *)
Theorem wordsToTranscript_normalize_unknown (rs : list WordResponse) :
  forallb noSpeaker rs = true ->
  has_text (normalize rs) = true ->
  wordsToTranscript (normalize rs)
  = lit "unknown: "
    ++ collapse_space_punct
         (join (lit " ") (map text (filter not_spacing (normalize rs)))).
Proof.
  intros Hs Ht. pose proof (normalize_speaker rs Hs) as Hu.
  destruct (normalize rs) as [|w rest] eqn:E; [discriminate Ht|].
  cbn [forallb] in Hu. apply andb_true_iff in Hu as [Hw Hrest].
  apply eqb_eq in Hw.
  rewrite (proj2 (one_speaker_line w rest
                    ltac:(rewrite Hw; exact Hrest) Ht)).
  rewrite Hw. reflexivity.
Qed.

Lemma wordsToTranscript_normalize_unknown_hi :
  wordsToTranscript
    (normalize
       [ mkWordResponse (Some (lit "Hi")) (Some 1%float) None None None;
         mkWordResponse (Some (lit " ")) None None (Some (lit "spacing")) (Some []);
         mkWordResponse (Some (lit "there")) None None (Some (lit "word")) None ])
  = lit "unknown: Hi there".
Proof.
  apply (wordsToTranscript_normalize_unknown
           [ mkWordResponse (Some (lit "Hi")) (Some 1%float) None None None;
             mkWordResponse (Some (lit " ")) None None (Some (lit "spacing")) (Some []);
             mkWordResponse (Some (lit "there")) None None (Some (lit "word")) None ]);
    reflexivity.
Defined.

End AssemblerMore.

(** ** More on the Token Normalizer *)

Module NormalizerMore.

Import Normalizer Tokens JSFacts.

Lemma or_num_not_nan (v : option Num.number) : Num.is_nan (or_num v 0%float) = false.
Proof.
  destruct v as [x|]; [|reflexivity]. unfold or_num.
  destruct (Num.truthy x) eqn:T; [|reflexivity].
  unfold Num.truthy in T. apply negb_true_iff in T.
  apply orb_false_iff in T as [_ T]. exact T.
Qed.

Lemma or_num_again (v : option Num.number) :
  or_num (Some (or_num v 0%float)) 0%float = or_num v 0%float.
Proof.
  destruct v as [x|]; [|reflexivity]. cbn [or_num].
  destruct (Num.truthy x) eqn:T; [|reflexivity].
  cbn [or_num]. rewrite T. reflexivity.
Qed.

Lemma or_str_again (v : option str) (d : str) :
  or_str (Some (or_str v d)) d = or_str v d.
Proof.
  destruct v as [[|c s]|]; cbn [or_str JS.truthy];
    try reflexivity; destruct d; reflexivity.
Qed.

(** X8: No normalized token has a start or an end that is NaN: a NaN from the
    provider, like a zero or an absent time, becomes [0]. *)
Theorem normalize_times_not_nan (rs : list WordResponse) :
  Forall (fun t => Num.is_nan (start t) = false /\ Num.is_nan (end_ t) = false)
         (normalize rs) /\
  (forall r x, r_start r = Some x -> Num.truthy x = false ->
               start (normalizeWord r) = 0%float) /\
  (forall r x, r_end r = Some x -> Num.truthy x = false ->
               end_ (normalizeWord r) = 0%float).
Proof.
  split; [|split].
  - unfold normalize. apply Forall_map. apply Forall_forall. intros r _.
    split; apply or_num_not_nan.
  - intros r x E T. cbn [normalizeWord start]. rewrite E. cbn [or_num].
    rewrite T. reflexivity.
  - intros r x E T. cbn [normalizeWord end_]. rewrite E. cbn [or_num].
    rewrite T. reflexivity.
Qed.

(** X9: Normalizing is idempotent: tokens given back as records with every
    field present normalize to themselves. *)
Theorem normalize_idempotent (rs : list WordResponse) :
  normalize (map asResponse (normalize rs)) = normalize rs.
Proof.
  unfold normalize. rewrite !map_map. apply map_ext. intros r.
  unfold normalizeWord at 1. unfold asResponse.
  cbn [r_text r_start r_end r_type r_speaker_id].
  cbn [normalizeWord text start end_ type speaker_id].
  rewrite !or_num_again, !or_str_again. reflexivity.
Qed.

End NormalizerMore.

(** ** More on the Library Reader *)

Module LibraryMore.

Import Library Tree Classifier Samples MoreSamples JSFacts LibraryFacts.

Section Reader.

Variable parse : str -> option Json.value.

Lemma transcriptMetadata_truthy (listing : option (list (str * fsnode)))
    (metadata : Json.value) :
  transcriptMetadata parse listing = Some metadata -> Json.truthy metadata = true.
Proof.
  intros H. apply transcriptMetadata_iff in H as (es & content & _ & _ & _ & T).
  exact T.
Qed.

Lemma readDir_wellFormed (n : fsnode) :
  forall rel nodes,
    readDir parse n rel = Ok nodes ->
    forallb (wellFormed Json.truthy) nodes = true.
Proof.
  induction n as [content| |entries IH] using fsnode_entries_ind;
    intros rel nodes H; try discriminate H.
  rewrite readDir_entries in H. revert nodes H.
  induction entries as [|[name child] rest IHrest]; intros nodes H.
  - injection H as <-. reflexivity.
  - inversion IH as [|? ? Hc Hr]; subst. specialize (IHrest Hr).
    destruct child as [content|listing].
    + rewrite readEntries_file in H. apply IHrest. exact H.
    + rewrite readEntries_dir in H.
      destruct (transcriptMetadata parse listing) as [metadata|] eqn:T.
      * destruct (readEntries parse rel rest) as [ns|e]; [|discriminate].
        injection H as <-. cbn [forallb wellFormed].
        rewrite (transcriptMetadata_truthy _ T). apply IHrest. reflexivity.
      * destruct (readDir parse (Dir listing) (relPath rel name))
          as [children|e] eqn:D; [|discriminate].
        destruct (readEntries parse rel rest) as [ns|e]; [|discriminate].
        injection H as <-. cbn [forallb wellFormed].
        cbn [snd] in Hc. rewrite (Hc _ _ D). apply IHrest. reflexivity.
Qed.

Lemma readDir_paths (n : fsnode) :
  forall rel nodes,
    readDir parse n rel = Ok nodes ->
    forallb (pathsUnder rel) nodes = true.
Proof.
  induction n as [content| |entries IH] using fsnode_entries_ind;
    intros rel nodes H; try discriminate H.
  rewrite readDir_entries in H. revert nodes H.
  induction entries as [|[name child] rest IHrest]; intros nodes H.
  - injection H as <-. reflexivity.
  - inversion IH as [|? ? Hc Hr]; subst. specialize (IHrest Hr).
    destruct child as [content|listing].
    + rewrite readEntries_file in H. apply IHrest. exact H.
    + rewrite readEntries_dir in H.
      destruct (transcriptMetadata parse listing) as [metadata|] eqn:T.
      * destruct (readEntries parse rel rest) as [ns|e]; [|discriminate].
        injection H as <-. cbn [forallb pathsUnder].
        rewrite eqb_refl. apply IHrest. reflexivity.
      * destruct (readDir parse (Dir listing) (relPath rel name))
          as [children|e] eqn:D; [|discriminate].
        destruct (readEntries parse rel rest) as [ns|e]; [|discriminate].
        injection H as <-. cbn [forallb pathsUnder].
        cbn [snd] in Hc. rewrite eqb_refl, (Hc _ _ D). apply IHrest.
        reflexivity.
Qed.

Lemma readDir_enterable (n : fsnode) :
  forall rel,
    match n with
    | File _ => readDir parse n rel = Err ENOTDIR
    | Dir _ =>
        if enterable parse n
        then exists nodes, readDir parse n rel = Ok nodes
        else readDir parse n rel = Err EACCES
    end.
Proof.
  induction n as [content| |entries IH] using fsnode_entries_ind;
    intros rel; try reflexivity.
  rewrite readDir_entries. cbn [enterable].
  induction entries as [|[name child] rest IHrest].
  - exists []. reflexivity.
  - inversion IH as [|? ? Hc Hr]; subst. specialize (IHrest Hr).
    destruct child as [content|listing].
    + rewrite readEntries_file. exact IHrest.
    + rewrite readEntries_dir. cbn [snd] in Hc.
      specialize (Hc (relPath rel name)).
      destruct (transcriptMetadata parse listing) as [metadata|].
      * cbn [andb].
        match goal with
        | |- context [if ?b then _ else _] => destruct b
        end.
        -- destruct IHrest as [ns ->]. eauto.
        -- rewrite IHrest. reflexivity.
      * destruct (enterable parse (Dir listing)).
        -- destruct Hc as [children ->]. cbn [andb].
           match goal with
           | |- context [if ?b then _ else _] => destruct b
           end.
           ++ destruct IHrest as [ns ->]. eauto.
           ++ rewrite IHrest. reflexivity.
        -- rewrite Hc. reflexivity.
Qed.

End Reader.

(** X10: Every tree the reader returns keeps the invariant of Library Nodes
    at every depth: a transcript entry has metadata, a truthy value, and no
    children; a category folder has a list of children and no metadata. *)
Theorem readLibraryStructure_wellFormed
    (parse : str -> option Json.value) (fs : fsnode) (baseDir : list str)
    (lib : FolderNode Json.value) :
  readLibraryStructure parse fs baseDir = Ok lib ->
  wellFormed Json.truthy lib = true.
Proof.
  unfold readLibraryStructure. destruct (resolve fs baseDir) as [dir|].
  - destruct (readDir parse dir []) as [children|e] eqn:D; [|discriminate].
    intros H. injection H as <-. cbn [wellFormed].
    apply (readDir_wellFormed parse dir [] D).
  - intros H. injection H as <-. reflexivity.
Qed.

Lemma readLibraryStructure_wellFormed_archive :
  wellFormed Json.truthy archive_tree = true.
Proof.
  apply (readLibraryStructure_wellFormed Json.parse archive_fs [lit "archive"]).
  vm_compute. reflexivity.
Defined.

(** X11: The path of every node below the root is the relative path from the
    archive root: the name of a top-level node, and for a deeper node the
    path of its parent, a slash and its name. *)
Theorem readLibraryStructure_relative_paths
    (parse : str -> option Json.value) (fs : fsnode) (baseDir : list str)
    (lib : FolderNode Json.value) :
  readLibraryStructure parse fs baseDir = Ok lib ->
  node_path lib = path_string baseDir /\
  exists children,
    node_children lib = Some children /\
    forallb (pathsUnder []) children = true.
Proof.
  unfold readLibraryStructure. destruct (resolve fs baseDir) as [dir|].
  - destruct (readDir parse dir []) as [children|e] eqn:D; [|discriminate].
    intros H. injection H as <-. split; [reflexivity|].
    exists children. split; [reflexivity|].
    apply (readDir_paths parse dir [] D).
  - intros H. injection H as <-. split; [reflexivity|].
    exists []. split; reflexivity.
Qed.

Lemma readLibraryStructure_relative_paths_archive :
  node_path archive_tree = lit "/archive" /\
  exists children,
    node_children archive_tree = Some children /\
    forallb (pathsUnder []) children = true.
Proof.
  apply (readLibraryStructure_relative_paths Json.parse archive_fs [lit "archive"]).
  vm_compute. reflexivity.
Defined.

(** X12: The read of an archive fails exactly when a directory it has to list
    cannot be listed, the root or a folder without truthy metadata at any
    depth, and then with the error of that listing; what a transcript
    folder holds is never listed. A root that is a file is not a directory. *)
Theorem readLibraryStructure_fails_iff_not_enterable
    (parse : str -> option Json.value) (fs : fsnode) (baseDir : list str) :
  match resolve fs baseDir with
  | None => exists lib, readLibraryStructure parse fs baseDir = Ok lib
  | Some (File content) => readLibraryStructure parse fs baseDir = Err ENOTDIR
  | Some (Dir listing) =>
      if enterable parse (Dir listing)
      then exists lib, readLibraryStructure parse fs baseDir = Ok lib
      else readLibraryStructure parse fs baseDir = Err EACCES
  end.
Proof.
  unfold readLibraryStructure.
  destruct (resolve fs baseDir) as [[content|listing]|]; [reflexivity| |eauto].
  pose proof (readDir_enterable parse (Dir listing) []) as H. cbv beta iota in H.
  destruct (enterable parse (Dir listing)).
  - destruct H as [nodes ->]. eauto.
  - rewrite H. reflexivity.
Qed.

Lemma existsb_filter (A : Type) (f : A -> bool) (l : list A) :
  existsb f l = match filter f l with [] => false | _ :: _ => true end.
Proof.
  induction l as [|a l IH]; [reflexivity|].
  cbn [existsb filter]. destruct (f a); [reflexivity|exact IH].
Qed.

(** X13: Reader and classifier together: the incremental prompt is chosen
    exactly when the archive root holds at least one subdirectory; files
    in the root do not count, and neither does a root that is missing. *)
Theorem hasExistingTranscripts_iff_subdirectory
    (parse : str -> option Json.value) (fs : fsnode) (baseDir : list str)
    (lib : FolderNode Json.value) :
  readLibraryStructure parse fs baseDir = Ok lib ->
  hasExistingTranscripts lib
  = match resolve fs baseDir with
    | Some (Dir (Some entries)) => existsb is_directory entries
    | _ => false
    end.
Proof.
  unfold readLibraryStructure.
  destruct (resolve fs baseDir) as [[content|[entries|]]|]; try discriminate.
  - destruct (readDir parse (Dir (Some entries)) []) as [children|e] eqn:D;
      [|discriminate].
    intros H. injection H as <-.
    rewrite readDir_entries in D. apply readEntries_classified in D.
    apply Forall2_length in D. rewrite existsb_filter.
    unfold hasExistingTranscripts. cbn [node_children].
    destruct (filter is_directory entries), children;
      try reflexivity; discriminate D.
  - intros H. injection H as <-. reflexivity.
Qed.

Lemma hasExistingTranscripts_archive :
  hasExistingTranscripts archive_tree = true.
Proof.
  apply (hasExistingTranscripts_iff_subdirectory Json.parse archive_fs
           [lit "archive"]).
  vm_compute. reflexivity.
Defined.

End LibraryMore.

(** ** More on truncation *)

Module TruncationMore.

Import Truncation TruncationFacts.

Local Open Scope Z_scope.

Lemma chunk_bounds (text : str) (maxTokens : Z) :
  0 < maxTokens -> maxTokens < estimateTokens text ->
  0 <= maxTokens * 4 / 3 /\ 3 * (maxTokens * 4 / 3) < length text /\
  4 * maxTokens < length text.
Proof.
  intros Hpos Hover.
  assert (Hlen : 4 * maxTokens < length text).
  { pose proof (estimateTokens_le text maxTokens). lia. }
  pose proof (Z.div_mod (maxTokens * 4) 3 ltac:(lia)) as Hd.
  pose proof (Z.mod_pos_bound (maxTokens * 4) 3 ltac:(lia)) as Hm.
  lia.
Qed.

Lemma length_truncate_le (text : str) (maxTokens : Z) :
  0 < maxTokens ->
  length (truncateTranscript text maxTokens) <= 4 * maxTokens + 55.
Proof.
  intros Hpos. destruct (Z_le_gt_dec (estimateTokens text) maxTokens) as [H|H].
  - rewrite truncateTranscript_under by exact H.
    apply estimateTokens_le in H. lia.
  - pose proof (truncateTranscript_over_lengths text (maxTokens := maxTokens)
                  Hpos ltac:(lia)) as L.
    cbv zeta in L. lia.
Qed.

(** X14: For a positive ceiling the result never has more than
    [4 * ceiling + 55] characters, whatever the length of the text: 600055
    with the default ceiling. *)
Theorem truncateTranscript_bounded (text : str) (maxTokens : Z) :
  0 < maxTokens ->
  length (truncateTranscript text maxTokens) <= 4 * maxTokens + 55.
Proof. apply length_truncate_le. Qed.

Lemma truncateTranscript_bounded_alphabet :
  length (truncateTranscript (lit "abcdefghijklm") 2) <= 4 * 2 + 55.
Proof. apply truncateTranscript_bounded. lia. Defined.

(** X15: Truncation does not bring a text within the ceiling: for a positive
    ceiling the estimate of the result is at most the ceiling exactly when
    the estimate of the text already was, so a truncated text is still
    over it. *)
Theorem truncateTranscript_stays_over (text : str) (maxTokens : Z) :
  0 < maxTokens ->
  (estimateTokens (truncateTranscript text maxTokens) <= maxTokens <->
   estimateTokens text <= maxTokens).
Proof.
  intros Hpos. split.
  - intros H. destruct (Z_le_gt_dec (estimateTokens text) maxTokens) as [L|G];
      [exact L|].
    pose proof (truncateTranscript_over_lengths text (maxTokens := maxTokens)
                  Hpos ltac:(lia)) as L.
    cbv zeta in L. apply estimateTokens_le in H. lia.
  - intros H. rewrite truncateTranscript_under by exact H. exact H.
Qed.

Lemma truncateTranscript_stays_over_alphabet :
  estimateTokens (truncateTranscript (lit "abcdefghijklm") 2) <= 2 <->
  estimateTokens (lit "abcdefghijklm") <= 2.
Proof. apply truncateTranscript_stays_over. lia. Defined.

Lemma firstn_skipn_middle (s : str) (a b : nat) :
  (a <= b)%nat ->
  skipn a s = firstn (b - a) (skipn a s) ++ skipn b s.
Proof.
  intros H. rewrite <- (firstn_skipn (b - a) (skipn a s)) at 1.
  rewrite skipn_skipn. do 2 f_equal. lia.
Qed.

Lemma excerpts_between (text : str) (maxTokens : Z) :
  0 < maxTokens -> maxTokens < estimateTokens text ->
  let chunkSize := maxTokens * 4 / 3 in
  exists omitted1 omitted2,
    text = leading chunkSize text ++ omitted1 ++ centered chunkSize text
           ++ omitted2 ++ trailing chunkSize text /\
    length omitted1 = (length text - chunkSize) / 2 - chunkSize /\
    length omitted1 + length omitted2 = length text - 3 * chunkSize /\
    0 < length omitted1 + length omitted2.
Proof.
  intros Hpos Hover chunkSize.
  destruct (chunk_bounds text Hpos Hover) as (Hk0 & Hk3 & _).
  fold chunkSize in Hk0, Hk3.
  pose proof (Z.div_mod (length text - chunkSize) 2 ltac:(lia)) as Hd.
  pose proof (Z.mod_pos_bound (length text - chunkSize) 2 ltac:(lia)) as Hm.
  set (k := Z.to_nat chunkSize).
  set (m := Z.to_nat ((length text - chunkSize) / 2)).
  set (n := List.length text).
  assert (Hn : length text = Z.of_nat n) by reflexivity.
  assert (Hkm : (k <= m)%nat) by (unfold k, m; lia).
  assert (Hmk : (m + k <= n - k)%nat) by (unfold k, m; lia).
  exists (firstn (m - k) (skipn k text)),
         (firstn (n - k - (m + k)) (skipn (m + k) text)).
  split; [|split; [|split]].
  - unfold leading, centered, trailing. fold k m n.
    pose proof (firstn_skipn_middle text Hkm) as E2.
    pose proof (firstn_skipn_middle text (a := m) (b := m + k) ltac:(lia)) as E3.
    replace (m + k - m)%nat with k in E3 by lia.
    pose proof (firstn_skipn_middle text Hmk) as E4.
    rewrite <- E4, <- E3, <- E2. symmetry. apply firstn_skipn.
  - unfold length at 1. rewrite length_firstn, length_skipn. fold n.
    unfold k, m in *. lia.
  - unfold length at 1 2. rewrite !length_firstn, !length_skipn. fold n.
    unfold k, m in *. lia.
  - unfold length at 1 2. rewrite !length_firstn, !length_skipn. fold n.
    unfold k, m in *. lia.
Qed.

(** X16: The three excerpts [truncateTranscript] returns do not overlap and
    something is always left out: for a positive ceiling and a text over
    it, the result is three excerpts of the chunk size with the two
    markers between them, and the text is the first excerpt, an omitted
    part, the second excerpt, another omitted part and the third excerpt,
    in this order; the first omitted part starts right after the first
    excerpt, and the two omitted parts together are not empty. *)
Theorem truncateTranscript_excerpts_disjoint (text : str) (maxTokens : Z) :
  0 < maxTokens -> maxTokens < estimateTokens text ->
  let chunkSize := maxTokens * 4 / 3 in
  exists excerpt1 excerpt2 excerpt3 omitted1 omitted2,
    truncateTranscript text maxTokens
    = excerpt1 ++ middle_marker ++ excerpt2 ++ later_marker ++ excerpt3 /\
    text = excerpt1 ++ omitted1 ++ excerpt2 ++ omitted2 ++ excerpt3 /\
    length excerpt1 = chunkSize /\
    length excerpt2 = chunkSize /\
    length excerpt3 = chunkSize /\
    length omitted1 = (length text - chunkSize) / 2 - chunkSize /\
    length omitted1 + length omitted2 = length text - 3 * chunkSize /\
    0 < length omitted1 + length omitted2.
Proof.
  intros Hpos Hover chunkSize.
  destruct (excerpts_between text Hpos Hover) as (o1 & o2 & Ht & Ho1 & Ho & Hn).
  destruct (truncateTranscript_over_lengths text Hpos Hover)
    as (L1 & L2 & L3 & _).
  exists (leading chunkSize text), (centered chunkSize text),
         (trailing chunkSize text), o1, o2.
  repeat split; try assumption.
  apply truncateTranscript_over; assumption.
Qed.

Lemma truncateTranscript_excerpts_disjoint_alphabet :
  exists excerpt1 excerpt2 excerpt3 omitted1 omitted2,
    truncateTranscript (lit "abcdefghijklm") 2
    = excerpt1 ++ middle_marker ++ excerpt2 ++ later_marker ++ excerpt3 /\
    lit "abcdefghijklm"
    = excerpt1 ++ omitted1 ++ excerpt2 ++ omitted2 ++ excerpt3 /\
    length excerpt1 = 2 /\
    length excerpt2 = 2 /\
    length excerpt3 = 2 /\
    length omitted1 = (length (lit "abcdefghijklm") - 2) / 2 - 2 /\
    length omitted1 + length omitted2 = length (lit "abcdefghijklm") - 3 * 2 /\
    0 < length omitted1 + length omitted2.
Proof.
  apply (truncateTranscript_excerpts_disjoint (lit "abcdefghijklm")
           (maxTokens := 2)).
  - lia.
  - vm_compute. reflexivity.
Defined.

End TruncationMore.

(** ** More on the Tree Summarizer *)

Module SummarizerMore.

Import Summarizer Tree Classifier Samples JSFacts SummarizerFacts.

Lemma truthy_indentation (depth : nat) : JS.truthy (indentation (S depth)) = true.
Proof. cbn [indentation]. apply truthy_app_r. reflexivity. Qed.

Lemma length_flat_map_sum (A B : Type) (f : A -> list B) (g : A -> nat)
    (l : list A) :
  Forall (fun a => List.length (f a) = g a) l ->
  List.length (flat_map f l) = list_sum (map g l).
Proof.
  induction 1 as [|a l Ha Hl IH]; [reflexivity|].
  cbn [flat_map map list_sum]. rewrite length_app, Ha, IH. reflexivity.
Qed.

Lemma list_sum_lines (A : Type) (f g : A -> nat) (l : list A) :
  list_sum (map (fun a => (3 * f a + g a)%nat) l)
  = (3 * list_sum (map f l) + list_sum (map g l))%nat.
Proof.
  unfold list_sum. induction l as [|a l IH]; [reflexivity|].
  cbn [map fold_right]. lia.
Qed.

Lemma renderLines_length (node : FolderNode TranscriptMetadata) :
  forall depth,
    List.length (renderLines (S depth) node)
    = (3 * entries node + folders node)%nat.
Proof.
  induction node as [name path type children metadata IH]
    using node_children_ind.
  intros depth. cbn [renderLines entries folders].
  destruct type.
  - unfold folderLine. rewrite truthy_indentation.
    cbn [app List.length]. destruct children as [cs|]; [|reflexivity].
    rewrite (length_flat_map_sum (renderLines (S (S depth)))
               (fun c => (3 * entries c + folders c)%nat)).
    + rewrite list_sum_lines. lia.
    + rewrite Forall_forall in IH |- *. intros c Hc. apply IH. exact Hc.
  - destruct metadata; reflexivity.
Qed.

Lemma renderLines_root_length (name path : str)
    (children : option (list (FolderNode TranscriptMetadata)))
    (metadata : option TranscriptMetadata) :
  List.length (renderLines 0 (mkNode name path folder children metadata))
  = (3 * entries (mkNode name path folder children metadata)
     + folders (mkNode name path folder children metadata) - 1)%nat.
Proof.
  cbn [renderLines entries folders indentation folderLine JS.truthy app].
  destruct children as [cs|]; [|reflexivity].
  rewrite (length_flat_map_sum (renderLines 1)
             (fun c => (3 * entries c + folders c)%nat)).
  - rewrite list_sum_lines. lia.
  - apply Forall_forall. intros c _. apply renderLines_length.
Qed.

(** X17: The digest grows with the archive: for a tree without line feeds in
    its names, summaries and themes, the digest of the root has three
    lines for each transcript entry and one for each category folder
    below the root. *)
Theorem folderTreeToString_line_count (root : FolderNode TranscriptMetadata) :
  oneLineTree root = true ->
  node_type root = folder ->
  List.length (nonEmptyLines (folderTreeToString root []))
  = (3 * entries root + folders root - 1)%nat.
Proof.
  intros Hone Hf.
  change (folderTreeToString root []) with (folderTreeToString root (indentation 0)).
  rewrite (folderTreeToString_renderLines root 0 Hone).
  destruct (renderLines_lines root 0 Hone) as [H1 H2].
  rewrite nonEmptyLines_join by assumption.
  destruct root as [name path type children metadata].
  cbn [node_type] in Hf. subst type. apply renderLines_root_length.
Qed.

Lemma starts_with_space (c : FolderNode TranscriptMetadata) (indent : str) :
  wellFormed (fun _ => true) c = true ->
  exists rest, folderTreeToString c (32%N :: indent) = 32%N :: rest.
Proof.
  destruct c as [name path [] [cs|] [md|]]; cbn [wellFormed]; try discriminate;
    intros _; cbn [folderTreeToString].
  - unfold folderLine. cbn [JS.truthy app].
    match goal with
    | |- exists rest, join nl ((32%N :: ?l) :: ?ls) = _ =>
        destruct ls; cbn [join app]; eauto
    end.
  - unfold transcriptLines. cbn [join app]. eauto.
Qed.

Lemma nonEmptyLines_starts (c : char) (s : str) :
  N.eqb c 10 = false ->
  exists l ls, nonEmptyLines (c :: s) = (c :: l) :: ls.
Proof.
  intros Hc. unfold nonEmptyLines. cbn [split]. rewrite Hc.
  destruct (split 10%N s) as [|p ps]; cbn [filter JS.truthy]; eauto.
Qed.

(** X18: The stand-in text for an empty digest is never used on a tree the
    reader can give: when every node is a category folder or a transcript
    entry with metadata and the root has a child, the digest is not empty
    and goes into the prompt as it is. *)
Theorem folderTreeToString_nonempty (lib : FolderNode TranscriptMetadata) :
  wellFormed (fun _ => true) lib = true ->
  hasExistingTranscripts lib = true ->
  folderTreeToString lib [] <> [] /\
  treeOrEmpty (folderTreeToString lib []) = folderTreeToString lib [].
Proof.
  intros Hw Hc.
  assert (H : folderTreeToString lib [] <> []).
  { destruct lib as [name path [] [[|c cs]|] [md|]];
      cbn [wellFormed] in Hw; try discriminate Hw; try discriminate Hc.
    cbn [forallb] in Hw. apply andb_true_iff in Hw as [Hw _].
    cbn [folderTreeToString folderLine JS.truthy app flat_map].
    destruct (starts_with_space c [32%N] Hw) as [rest E].
    change (lit "  ") with [32%N; 32%N]. cbn [app]. rewrite E.
    assert (E2 : exists l ls, nonEmptyLines (32%N :: rest) = (32%N :: l) :: ls)
      by (apply nonEmptyLines_starts; reflexivity).
    destruct E2 as (l & ls & ->).
    cbn [app].
    match goal with
    | |- join nl ((32%N :: l) :: ?more) <> [] =>
        destruct more; cbn [join app]; discriminate
    end. }
  split; [exact H|].
  unfold treeOrEmpty. destruct (folderTreeToString lib []); [contradiction|].
  reflexivity.
Qed.

Lemma folderTreeToString_line_count_one_category :
  List.length (nonEmptyLines (folderTreeToString (one_category (lit "/archive")) []))
  = 4%nat.
Proof.
  apply (folderTreeToString_line_count (one_category (lit "/archive")));
    reflexivity.
Defined.

Lemma folderTreeToString_nonempty_one_category :
  folderTreeToString (one_category (lit "/archive")) [] <> [] /\
  treeOrEmpty (folderTreeToString (one_category (lit "/archive")) [])
  = folderTreeToString (one_category (lit "/archive")) [].
Proof.
  apply (folderTreeToString_nonempty (one_category (lit "/archive")));
    reflexivity.
Defined.

End SummarizerMore.

(** ** More on the Classifier *)

Module ClassifierMore.

Import Summarizer Truncation Classifier TruncationFacts TruncationMore.

Local Open Scope Z_scope.

Lemma length_bootstrapPrompt (u t p : str) :
  length (bootstrapPrompt u t p) = 651 + length u + length t + length p.
Proof.
  unfold bootstrapPrompt, quoted, length. rewrite !List.length_app.
  repeat match goal with
         | |- context [List.length (lit ?s)] =>
             let n := eval vm_compute in (List.length (lit s)) in
             change (List.length (lit s)) with n
         end.
  change (List.length dq) with 1%nat. lia.
Qed.

Lemma length_incrementalPrompt (u t f p : str) :
  length (incrementalPrompt u t f p)
  = 927 + length u + length t + length (treeOrEmpty f) + length p.
Proof.
  unfold incrementalPrompt, quoted, length. rewrite !List.length_app.
  repeat match goal with
         | |- context [List.length (lit ?s)] =>
             let n := eval vm_compute in (List.length (lit s)) in
             change (List.length (lit s)) with n
         end.
  change (List.length dq) with 1%nat. lia.
Qed.

(** X19: The size of the prompt does not grow with the transcript: the
    bootstrap prompt has at most 651 characters besides the URL, the title
    and at most 600055 characters of transcript; the incremental prompt at
    most 927 besides these and the digest of the library, which alone is
    not bounded. *)
Theorem prompt_length_bounded (transcript videoUrl videoTitle : str)
    (lib : FolderNode TranscriptMetadata) :
  (hasExistingTranscripts lib = false ->
   length (prompt transcript videoUrl videoTitle lib)
   <= 651 + length videoUrl + length videoTitle + 600055) /\
  (hasExistingTranscripts lib = true ->
   length (prompt transcript videoUrl videoTitle lib)
   <= 927 + length videoUrl + length videoTitle
      + length (treeOrEmpty (folderTreeToString lib [])) + 600055).
Proof.
  pose proof (length_truncate_le transcript (maxTokens := defaultMaxTokens)
                ltac:(reflexivity)) as Hp.
  change (4 * defaultMaxTokens + 55) with 600055 in Hp.
  unfold prompt. split; intros ->.
  - rewrite length_bootstrapPrompt. lia.
  - rewrite length_incrementalPrompt. lia.
Qed.


End ClassifierMore.

(** ** Titles and media types *)

Module InputFacts.

Import Input Truncation TruncationFacts.

Lemma slice_prefix (s : str) (n : nat) :
  slice s 0 (Z.of_nat n) = firstn n s.
Proof.
  unfold slice. rewrite Z.ltb_irrefl.
  assert (E : (Z.of_nat n <? 0)%Z = false) by (apply Z.ltb_ge; lia).
  rewrite E. pose proof (length_nonneg s) as Hl.
  rewrite (Z.min_l 0) by lia. rewrite Z.sub_0_r. cbn [Z.to_nat skipn].
  unfold length in *.
  destruct (Z.min_spec (Z.of_nat n) (Z.of_nat (List.length s)))
    as [[H ->]|[H ->]]; rewrite Nat2Z.id; [reflexivity|].
  rewrite !firstn_all2 by lia. reflexivity.
Qed.

Lemma forallb_firstn (A : Type) (p : A -> bool) (n : nat) (l : list A) :
  forallb p l = true -> forallb p (firstn n l) = true.
Proof.
  revert n. induction l as [|a l IH]; intros [|n] H; try reflexivity.
  cbn [forallb firstn] in *. apply andb_true_iff in H as [Ha Hl].
  rewrite Ha, (IH n Hl). reflexivity.
Qed.

Lemma replaceSpaces_safe (s : str) :
  forallb (fun c => negb (is_forbidden c)) s = true ->
  forallb pathSafe (replaceSpaces s) = true.
Proof.
  induction s as [|c rest IH]; intros H; [reflexivity|].
  cbn [forallb] in H. apply andb_true_iff in H as [Hc Hrest].
  specialize (IH Hrest). cbn [replaceSpaces].
  destruct (is_space c) eqn:Sc.
  - destruct rest as [|c' rest']; [reflexivity|].
    destruct (is_space c'); [exact IH|].
    cbn [forallb]. rewrite IH. reflexivity.
  - cbn [forallb]. rewrite IH. unfold pathSafe. rewrite Sc, Hc. reflexivity.
Qed.

Lemma replaceForbidden_safe (s : str) :
  forallb (fun c => negb (is_forbidden c)) (replaceForbidden s) = true.
Proof.
  induction s as [|c rest IH]; [reflexivity|].
  cbn [replaceForbidden map forallb]. fold (replaceForbidden rest).
  rewrite IH, andb_true_r. destruct (is_forbidden c) eqn:F; [reflexivity|].
  rewrite F. reflexivity.
Qed.

Lemma decimal_safe (n : N) : forallb pathSafe (decimal n) = true.
Proof.
  unfold decimal. induction (N.to_uint n) as [|d IH|d IH|d IH|d IH|d IH
    |d IH|d IH|d IH|d IH|d IH]; [reflexivity|..];
    cbn [NilEmpty.string_of_uint]; unfold lit in *;
    cbn [list_ascii_of_string map forallb]; rewrite IH; reflexivity.
Qed.

Lemma lower_letter_safe (c : N) :
  (65 <= c <= 90)%N -> pathSafe (c + 32)%N = true.
Proof.
  intros H. unfold pathSafe, is_space, is_forbidden.
  repeat match goal with
         | |- context [N.eqb (c + 32)%N ?k] =>
             replace (N.eqb (c + 32)%N k) with false
               by (symmetry; apply N.eqb_neq; lia)
         end.
  replace (N.leb (c + 32)%N 13%N) with false by (symmetry; apply N.leb_gt; lia).
  replace (N.leb 8192%N (c + 32)%N) with false
    by (symmetry; apply N.leb_gt; lia).
  rewrite andb_false_r. reflexivity.
Qed.

Lemma asciiLower_safe (s : str) :
  forallb pathSafe s = true -> forallb pathSafe (asciiLower s) = true.
Proof.
  induction s as [|c rest IH]; intros H; [reflexivity|].
  cbn [forallb] in H. apply andb_true_iff in H as [Hc Hrest].
  cbn [asciiLower map forallb]. fold (asciiLower rest). rewrite (IH Hrest).
  destruct (N.leb 65 c && N.leb c 90) eqn:L; [|rewrite Hc; reflexivity].
  apply andb_true_iff in L as [L1 L2].
  apply N.leb_le in L1. apply N.leb_le in L2.
  rewrite lower_letter_safe by lia. reflexivity.
Qed.

Section Builtins.

Variable extname : str -> str.
Variable basename : str -> str -> str.
Variable toLowerCase : str -> str.

Lemma sanitize_length (s : str) :
  (List.length (sanitize toLowerCase s) <= 100)%nat.
Proof.
  unfold sanitize. rewrite (slice_prefix _ 100). rewrite length_firstn. lia.
Qed.

Lemma sanitize_safe (s : str) :
  (forall t, forallb pathSafe t = true -> forallb pathSafe (toLowerCase t) = true) ->
  forallb pathSafe (sanitize toLowerCase s) = true.
Proof.
  intros Hlow. unfold sanitize. rewrite (slice_prefix _ 100).
  apply forallb_firstn. apply Hlow. apply replaceSpaces_safe.
  apply replaceForbidden_safe.
Qed.

End Builtins.

(** X21: A title from a file path or from the title lookup never has more than
    100 code units, however the platform lower-cases. *)
Theorem title_at_most_100
    (extname : str -> str) (basename : str -> str -> str)
    (toLowerCase : str -> str) :
  (forall filePath,
      (List.length (getTitleFromPath extname basename toLowerCase filePath)
       <= 100)%nat) /\
  (forall out now,
      (List.length (getVideoTitle toLowerCase (Some out) now) <= 100)%nat).
Proof.
  split; intros; apply sanitize_length.
Qed.

(** X22: A title is safe as a folder name: it holds no white space and none of
    the characters the first replacement looks for, whether it comes from
    a file path, from the title lookup or from the clock when the lookup
    failed, provided lower-casing brings in no such character. *)
Theorem title_path_safe
    (extname : str -> str) (basename : str -> str -> str)
    (toLowerCase : str -> str) :
  (forall t, forallb pathSafe t = true -> forallb pathSafe (toLowerCase t) = true) ->
  (forall filePath,
      forallb pathSafe (getTitleFromPath extname basename toLowerCase filePath)
      = true) /\
  (forall stdout now,
      forallb pathSafe (getVideoTitle toLowerCase stdout now) = true).
Proof.
  intros Hlow. split.
  - intros filePath. apply sanitize_safe. exact Hlow.
  - intros [out|] now; cbn [getVideoTitle].
    + apply sanitize_safe. exact Hlow.
    + rewrite forallb_app, decimal_safe. reflexivity.
Qed.

Lemma title_path_safe_ascii :
  getVideoTitle asciiLower (Some (lit "My Talk: Part 1/2  (Live)" ++ nl)) 0
  = lit "my-talk--part-1-2-(live)" /\
  getVideoTitle asciiLower None 1714550400000 = lit "video-1714550400000" /\
  (forall stdout now,
      forallb pathSafe (getVideoTitle asciiLower stdout now) = true).
Proof.
  split; [reflexivity|]. split; [reflexivity|].
  apply (title_path_safe (fun p => lit ".mp4") (fun p ext => p) asciiLower).
  apply asciiLower_safe.
Defined.

(** X23: The video types are among the supported media types: a file that
    [isVideoFile] accepts is never rejected as unsupported, a supported file
    has its audio extracted exactly when it is a video, and is used as it
    is otherwise. *)
Theorem isVideoFile_is_supported
    (extname : str -> str) (toLowerCase : str -> str) (filePath : str) :
  (isVideoFile extname toLowerCase filePath = true ->
   isSupported extname toLowerCase filePath = true) /\
  (localFile extname toLowerCase filePath = ExtractAudio <->
   isVideoFile extname toLowerCase filePath = true) /\
  (localFile extname toLowerCase filePath = UseAsAudio <->
   includes [lit ".mp3"; lit ".m4a"; lit ".wav"; lit ".ogg"; lit ".flac"]
            (toLowerCase (extname filePath)) = true
   /\ isVideoFile extname toLowerCase filePath = false).
Proof.
  assert (E : forall ext,
             includes MEDIA_EXTENSIONS ext
             = includes [lit ".mp3"; lit ".m4a"; lit ".wav"; lit ".ogg"; lit ".flac"] ext
               || includes VIDEO_EXTENSIONS ext).
  { intros ext. unfold includes.
    change MEDIA_EXTENSIONS with
      ([lit ".mp3"; lit ".m4a"; lit ".wav"; lit ".ogg"; lit ".flac"]
       ++ VIDEO_EXTENSIONS).
    apply existsb_app. }
  unfold localFile, isSupported, isVideoFile. cbv zeta. rewrite E.
  set (audio := includes [lit ".mp3"; lit ".m4a"; lit ".wav"; lit ".ogg"; lit ".flac"]
                         (toLowerCase (extname filePath))).
  set (video := includes VIDEO_EXTENSIONS (toLowerCase (extname filePath))).
  destruct audio, video; cbn [orb negb]; intuition congruence.
Qed.

End InputFacts.

(** ** More on the Pipeline Orchestrator *)

Module PipelineMore.

Import Pipeline PipelineFacts.



End PipelineMore.
